(** * Commit Critic: a shallow embedding of the git tools, the thread store
      and the command-line approval workflow.

    Python [str] values are modelled as [string]: sequences of characters
    whose code points lie below 256.  Integers are [Z].  The JSON text a tool
    returns is modelled by the value handed to [json.dumps]. *)

From Stdlib Require Import String Ascii List ZArith Lia Bool Arith.
From Stdlib Require Import Numbers.DecimalString.
Import ListNotations.

Local Open Scope list_scope.
Local Open Scope string_scope.

(* ================================================================= *)
(** ** Python string operations used by the sources *)

Module PyStr.

(** [str.isspace] on one character (code points below 256): TAB..CR,
    FS..US, SPACE, NEL and NBSP. *)
Definition isspace (c : ascii) : bool :=
  let n := nat_of_ascii c in
  (((9 <=? n) && (n <=? 13)) || ((28 <=? n) && (n <=? 32))
   || (n =? 133) || (n =? 160))%nat.

Fixpoint lstrip (s : string) : string :=
  match s with
  | EmptyString => EmptyString
  | String c s' => if isspace c then lstrip s' else s
  end.

Fixpoint rstrip (s : string) : string :=
  match s with
  | EmptyString => EmptyString
  | String c s' =>
      match rstrip s' with
      | EmptyString => if isspace c then EmptyString else String c EmptyString
      | r => String c r
      end
  end.

(** [s.strip()] *)
Definition strip (s : string) : string := rstrip (lstrip s).

(** [str.lower] on one character: A-Z and the Latin-1 capitals
    (0xC0-0xDE except the multiplication sign 0xD7) move up by 32. *)
Definition lower_char (c : ascii) : ascii :=
  let n := nat_of_ascii c in
  if (((65 <=? n) && (n <=? 90))
      || ((192 <=? n) && (n <=? 222) && negb (n =? 215)))%nat
  then ascii_of_nat (n + 32) else c.

(** [s.lower()] *)
Fixpoint lower (s : string) : string :=
  match s with
  | EmptyString => EmptyString
  | String c s' => String (lower_char c) (lower s')
  end.

(** [s.startswith(p)] *)
Definition startswith (s p : string) : bool := String.prefix p s.

(** [s.split(sep)] for a one-character separator: never an empty list. *)
Fixpoint split (sep : ascii) (s : string) : list string :=
  match s with
  | EmptyString => [EmptyString]
  | String c s' =>
      if Ascii.eqb c sep then EmptyString :: split sep s'
      else match split sep s' with
           | [] => [String c EmptyString]
           | p :: ps => String c p :: ps
           end
  end.

(** [s[:n]] *)
Definition slice_to (n : nat) (s : string) : string := String.substring 0 n s.

(** truth value of a string: [bool(s)] *)
Definition truthy (s : string) : bool := negb (String.eqb s EmptyString).

(** [x in [a, b, ...]] *)
Definition mem (x : string) (l : list string) : bool :=
  existsb (String.eqb x) l.

(** [str(n)] for an integer, as an f-string renders it. *)
Definition of_int (n : Z) : string := NilZero.string_of_int (Z.to_int n).

Definition NUL : ascii := ascii_of_nat 0.
Definition US : ascii := ascii_of_nat 31.
Definition LF : ascii := ascii_of_nat 10.
Definition chr (c : ascii) : string := String c EmptyString.

(** [any(c.isspace() for c in s)] *)
Fixpoint any_space (s : string) : bool :=
  match s with
  | EmptyString => false
  | String c s' => isspace c || any_space s'
  end.

(** [s[0]] and [s[-1]], when they exist. *)
Definition first_char (s : string) : option ascii :=
  match s with
  | EmptyString => None
  | String c _ => Some c
  end.

Fixpoint last_char (s : string) : option ascii :=
  match s with
  | EmptyString => None
  | String c EmptyString => Some c
  | String _ s' => last_char s'
  end.

End PyStr.

(* ================================================================= *)
(** ** JSON values *)

Module Json.

#[local] Unset Elimination Schemes.
Inductive json : Type :=
| JNull
| JBool (b : bool)
| JInt (n : Z)
| JStr (s : string)
| JList (items : list json)
| JDict (fields : list (string * json)).
#[local] Set Elimination Schemes.

Fixpoint assoc (k : string) (fields : list (string * json)) : option json :=
  match fields with
  | [] => None
  | (k', v) :: rest => if String.eqb k k' then Some v else assoc k rest
  end.

(** [d.get(k)]; [None] as well when [d] is not an object. *)
Definition get (k : string) (d : json) : option json :=
  match d with
  | JDict fields => assoc k fields
  | _ => None
  end.

Definition has_key (k : string) (d : json) : bool :=
  match get k d with Some _ => true | None => false end.

End Json.

(* ================================================================= *)
(** ** subprocess.run *)

Module Subprocess.

(** What the operating system does with one spawned command. *)
Inductive outcome : Type :=
| Completed (returncode : Z) (stdout stderr : string)
| TimedOut (text : string)      (* the time limit passed; [text] is [str(e)] *)
| Raised (text : string).       (* any other exception, e.g. git missing *)

Inductive exn : Type :=
| CalledProcessError (returncode : Z) (stderr : string)
| TimeoutExpired (text : string)
| Exception (text : string).

Record CompletedProcess : Type :=
  { returncode : Z; stdout : string; stderr : string }.

(** A command that [subprocess.run(..., check=True)] returns from: it ran
    to its end with exit status 0. *)
Definition succeeded (o : outcome) : bool :=
  match o with
  | Completed rc _ _ => (rc =? 0)%Z
  | TimedOut _ | Raised _ => false
  end.

Section Run.
Variable World : Type.
(** The environment: how a command (argv, time limit) behaves in a world. *)
Variable exec : list string -> option Z -> World -> outcome * World.
(** [tempfile.mkdtemp(prefix=...)]: the new directory, or the text of the
    exception it raised. *)
Variable mkdtemp : string -> World -> (string + string) * World.

(** The world together with the log of every command spawned so far. *)
Record state : Type := { world : World; spawned : list (list string) }.

(** [subprocess.run(argv, capture_output=True, text=True, check=..., timeout=...)] *)
Definition run (argv : list string) (check : bool) (timeout : option Z)
           (st : state) : (exn + CompletedProcess) * state :=
  let (o, w) := exec argv timeout (world st) in
  let st' := {| world := w; spawned := (spawned st ++ [argv])%list |} in
  match o with
  | Completed rc out err =>
      if check && negb (rc =? 0)%Z
      then (inl (CalledProcessError rc err), st')
      else (inr {| returncode := rc; stdout := out; stderr := err |}, st')
  | TimedOut text => (inl (TimeoutExpired text), st')
  | Raised text => (inl (Exception text), st')
  end.

Definition make_temp_dir (prefix : string) (st : state)
  : (exn + string) * state :=
  let (r, w) := mkdtemp prefix (world st) in
  let st' := {| world := w; spawned := spawned st |} in
  match r with
  | inl dir => (inr dir, st')
  | inr text => (inl (Exception text), st')
  end.
End Run.

Arguments world {World} _.
Arguments spawned {World} _.
Arguments Build_state {World} _ _.
Arguments run {World} exec argv check timeout st.
Arguments make_temp_dir {World} mkdtemp prefix st.

End Subprocess.

(* ================================================================= *)
(** ** tools.py: the git operations *)

Module Tools.
Import PyStr Json Subprocess.

(** [max(1, min(int(limit), 500))] *)
Definition clamp_limit (limit : Z) : Z := Z.max 1 (Z.min limit 500).

Definition log_format : string := "--format=%H%x1f%s%x1f%b%x00".

Definition log_argv (repo_path : string) (limit : Z) : list string :=
  ["git"; "-C"; repo_path; "log"; "-n" ++ of_int limit; log_format].

(** One iteration of the loop over [result.stdout.split('\x00')]. *)
Definition parse_entry (entry : string) : list json :=
  let entry := strip entry in
  if negb (truthy entry) then []
  else
    let parts := split US entry in
    if (2 <=? List.length parts)%nat
    then [JDict [("hash", JStr (slice_to 8 (nth 0 parts "")));
                 ("message", JStr (strip (nth 1 parts "")));
                 ("body", JStr (if (2 <? List.length parts)%nat
                                then strip (nth 2 parts "") else ""))]]
    else [].

Definition parse_log (stdout : string) : list json :=
  flat_map parse_entry (split NUL stdout).

(** The commits a result of [get_commits_tool] carries: the list itself on
    success, the ["commits"] field of an error payload. *)
Definition commits_of (result : json) : list json :=
  match result with
  | JList items => items
  | JDict fields =>
      match assoc "commits" fields with
      | Some (JList items) => items
      | _ => []
      end
  | _ => []
  end.

Definition staged_stat_argv (repo_path : string) : list string :=
  ["git"; "-C"; repo_path; "diff"; "--staged"; "--stat"].
Definition staged_diff_argv (repo_path : string) : list string :=
  ["git"; "-C"; repo_path; "diff"; "--staged"].
Definition staged_names_argv (repo_path : string) : list string :=
  ["git"; "-C"; repo_path; "diff"; "--staged"; "--name-only"].
Definition commit_argv (repo_path message : string) : list string :=
  ["git"; "-C"; repo_path; "commit"; "-m"; message].
Definition clone_argv (url temp_dir : string) : list string :=
  ["git"; "clone"; "--depth=50"; url; temp_dir].

(** [[f for f in stdout.strip().split('\n') if f]] *)
Definition staged_files (stdout : string) : list string :=
  filter truthy (split LF (strip stdout)).

(** [url.startswith("https://") or ... or url.startswith("git@")] *)
Definition has_allowed_protocol (url : string) : bool :=
  startswith url "https://" || startswith url "http://"
  || startswith url "git://" || startswith url "git@".

Section WithEnvironment.
Variable World : Type.
Variable exec : list string -> option Z -> World -> outcome * World.
Variable mkdtemp : string -> World -> (string + string) * World.

Definition get_commits_tool (repo_path : string) (limit : Z)
           (st : state World) : json * state World :=
  let limit := clamp_limit limit in
  match run exec (log_argv repo_path limit) true None st with
  | (inr result, st') => (JList (parse_log (stdout result)), st')
  | (inl (CalledProcessError _ err), st') =>
      (JDict [("error", JStr ("Failed to fetch commits: " ++ err));
              ("commits", JList [])], st')
  | (inl (TimeoutExpired text), st') | (inl (Exception text), st') =>
      (JDict [("error", JStr ("Unexpected error: " ++ text));
              ("commits", JList [])], st')
  end.

Definition clone_failure (text : string) : json :=
  JDict [("success", JBool false); ("repo_path", JNull);
         ("error", JStr text)].

Definition clone_repo_tool (url : string) (st : state World)
  : json * state World :=
  let url := strip url in
  if negb (truthy url) then (clone_failure "Empty URL provided", st)
  else if negb (has_allowed_protocol url) then
    (clone_failure
       "Invalid URL protocol. Use https://, http://, git://, or git@ URLs",
     st)
  else
    match make_temp_dir mkdtemp "commit_critic_" st with
    | (inl e, st1) =>
        (clone_failure
           ("Unexpected error: " ++
            match e with
            | CalledProcessError _ t | TimeoutExpired t | Exception t => t
            end), st1)
    | (inr temp_dir, st1) =>
        match run exec (clone_argv url temp_dir) true (Some 60%Z) st1 with
        | (inr _, st2) =>
            (JDict [("success", JBool true); ("repo_path", JStr temp_dir);
                    ("message", JStr ("Successfully cloned " ++ url
                                      ++ " to " ++ temp_dir))], st2)
        | (inl (TimeoutExpired _), st2) =>
            (clone_failure
               "Clone timed out after 60 seconds. Repository may be too large or network is slow.",
             st2)
        | (inl (CalledProcessError _ err), st2) =>
            (clone_failure ("Clone failed: " ++ err), st2)
        | (inl (Exception text), st2) =>
            (clone_failure ("Unexpected error: " ++ text), st2)
        end
    end.

Definition staged_failure (e : exn) : json :=
  match e with
  | CalledProcessError _ err =>
      JDict [("has_staged", JBool false);
             ("error", JStr ("Failed to get staged changes: " ++ err))]
  | TimeoutExpired text | Exception text =>
      JDict [("has_staged", JBool false);
             ("error", JStr ("Unexpected error: " ++ text))]
  end.

Definition get_staged_diff_tool (repo_path : string) (st : state World)
  : json * state World :=
  match run exec (staged_stat_argv repo_path) true None st with
  | (inl e, st1) => (staged_failure e, st1)
  | (inr stat_result, st1) =>
  match run exec (staged_diff_argv repo_path) true None st1 with
  | (inl e, st2) => (staged_failure e, st2)
  | (inr diff_result, st2) =>
  match run exec (staged_names_argv repo_path) true None st2 with
  | (inl e, st3) => (staged_failure e, st3)
  | (inr files_result, st3) =>
      let files := staged_files (stdout files_result) in
      match files with
      | [] =>
          (JDict [("has_staged", JBool false);
                  ("message",
                   JStr "No staged changes found. Stage files with 'git add' first.")],
           st3)
      | _ =>
          (JDict [("has_staged", JBool true);
                  ("stat", JStr (stdout stat_result));
                  ("diff", JStr (slice_to 5000 (stdout diff_result)));
                  ("files", JList (map JStr files));
                  ("file_count", JInt (Z.of_nat (List.length files)))],
           st3)
      end
  end end end.

Definition create_commit_tool (message repo_path : string)
           (st : state World) : json * state World :=
  let message := if truthy message then strip message else "" in
  if negb (truthy message) then
    (JDict [("success", JBool false);
            ("error", JStr "Empty commit message provided")], st)
  else
    match run exec (commit_argv repo_path message) true None st with
    | (inr result, st') =>
        (JDict [("success", JBool true);
                ("output", JStr (stdout result));
                ("message", JStr ("Successfully committed: "
                                  ++ slice_to 50 message ++ "..."))], st')
    | (inl (CalledProcessError _ err), st') =>
        (JDict [("success", JBool false);
                ("error", JStr ("Commit failed: " ++ err))], st')
    | (inl (TimeoutExpired text), st') | (inl (Exception text), st') =>
        (JDict [("success", JBool false);
                ("error", JStr ("Unexpected error: " ++ text))], st')
    end.
End WithEnvironment.

Arguments get_commits_tool {World} exec repo_path limit st.
Arguments clone_repo_tool {World} exec mkdtemp url st.
Arguments get_staged_diff_tool {World} exec repo_path st.
Arguments create_commit_tool {World} exec message repo_path st.

End Tools.

(* ================================================================= *)
(** ** models.py: the commit analysis *)

Module Models.





End Models.

(* ================================================================= *)
(** ** commit_critic_agent.py: the checkpoint store and its threads *)

Module Agent.

(** A row of the [checkpoints] table; only [thread_id] is read here. *)
Record checkpoint : Type :=
  { thread_id : string; checkpoint_ns : string; checkpoint_id : string }.

(** The file [CHECKPOINT_DB], absent or a SQLite database.  (On a file that
    is no database [sqlite3] raises [DatabaseError], which the functions
    below do not catch; such a file is outside this type.) *)
Inductive database : Type :=
| NoFile                              (* [CHECKPOINT_DB.exists()] is false *)
| NoTable                             (* queries raise [sqlite3.OperationalError] *)
| Table (rows : list checkpoint).

Record store : Type :=
  { SQLITE_AVAILABLE : bool;
    CHECKPOINT_DB : database;
    _memory_saver : option (list checkpoint) }.

Inductive checkpointer : Type :=
| SqliteSaver
| InMemorySaver (content : list checkpoint).

Definition get_checkpointer (st : store) : checkpointer * string * store :=
  if SQLITE_AVAILABLE st then (SqliteSaver, "sqlite", st)
  else
    match _memory_saver st with
    | None =>
        (InMemorySaver [], "memory",
         {| SQLITE_AVAILABLE := SQLITE_AVAILABLE st;
            CHECKPOINT_DB := CHECKPOINT_DB st;
            _memory_saver := Some [] |})
    | Some content => (InMemorySaver content, "memory", st)
    end.

Definition not_listable : string :=
  "(in-memory threads not listable - install langgraph-checkpoint-sqlite)".

(** [SELECT DISTINCT thread_id FROM checkpoints]: each thread once.  The
    order of the list is that of the rows here, whereas sqlite orders the
    answer by its index; only membership and length are meant. *)
Definition distinct_thread_ids (rows : list checkpoint) : list string :=
  nodup string_dec (map thread_id rows).

Definition list_threads (st : store) : list string :=
  if negb (SQLITE_AVAILABLE st) then [not_listable]
  else
    match CHECKPOINT_DB st with
    | NoFile => []
    | NoTable => []
    | Table rows => distinct_thread_ids rows
    end.

Definition with_db (st : store) (db : database) : store :=
  {| SQLITE_AVAILABLE := SQLITE_AVAILABLE st;
     CHECKPOINT_DB := db;
     _memory_saver := _memory_saver st |}.

(** [DELETE FROM checkpoints WHERE thread_id = ?]; [cursor.rowcount > 0] *)
Definition clear_thread (tid : string) (st : store) : bool * store :=
  if negb (SQLITE_AVAILABLE st) then (false, st)
  else
    match CHECKPOINT_DB st with
    | NoFile => (false, st)
    | NoTable => (false, st)
    | Table rows =>
        let kept := filter (fun r => negb (String.eqb (thread_id r) tid)) rows in
        let rowcount := (List.length rows - List.length kept)%nat in
        ((0 <? rowcount)%nat, with_db st (Table kept))
    end.

(** [DELETE FROM checkpoints]; [cursor.rowcount] *)
Definition clear_all_threads (st : store) : Z * store :=
  if negb (SQLITE_AVAILABLE st) then
    (1%Z, {| SQLITE_AVAILABLE := SQLITE_AVAILABLE st;
             CHECKPOINT_DB := CHECKPOINT_DB st;
             _memory_saver := None |})
  else
    match CHECKPOINT_DB st with
    | NoFile => (0%Z, st)
    | NoTable => (0%Z, st)
    | Table rows => (Z.of_nat (List.length rows), with_db st (Table []))
    end.

End Agent.

(* ================================================================= *)
(** ** cli.py: the write workflow *)

Module Cli.
Import PyStr.

Definition dq : string := chr (ascii_of_nat 34).
Definition nl : string := chr LF.

(** The instructions [run_write] hands to the agent. *)
Inductive request : Type :=
| Suggest (repo_path : string)
| ExecuteSuggested
| Revise (feedback : string)
| ExecuteRevised
| ExecuteCustom (custom_msg : string).

(** The text of each instruction, as the source spells it. *)
Definition request_text (r : request) : string :=
  match r with
  | Suggest repo_path =>
      "Help me write a commit message for my staged changes in " ++ repo_path
      ++ nl ++ nl ++ "Steps:" ++ nl
      ++ "1. Get staged changes using task(" ++ dq ++ "get_staged_changes" ++ dq
      ++ ", " ++ dq ++ "Get staged diff from " ++ repo_path ++ dq ++ ")" ++ nl
      ++ "2. If no staged changes, tell me to stage files first" ++ nl
      ++ "3. If there are staged changes, generate a commit message using task("
      ++ dq ++ "suggest_commit_message" ++ dq ++ ", " ++ dq
      ++ "Suggest commit for: [diff]" ++ dq ++ ")" ++ nl
      ++ "4. Present the suggested commit message clearly" ++ nl ++ nl
      ++ "Do NOT execute the commit - just suggest the message and wait for my approval."
  | ExecuteSuggested =>
      "Yes, execute the commit with that message using task('execute_commit', '...')"
  | Revise feedback =>
      "Please revise the commit message based on this feedback: " ++ feedback
  | ExecuteRevised => "Yes, execute the commit with that revised message"
  | ExecuteCustom custom_msg =>
      "Execute commit with this exact message: " ++ custom_msg
  end.

(** The instructions that ask the agent to run the commit. *)
Definition is_commit_request (r : request) : bool :=
  match r with
  | ExecuteSuggested | ExecuteRevised | ExecuteCustom _ => true
  | Suggest _ | Revise _ => false
  end.

Inductive message : Type :=
| HumanMessage (content : request)
| AIMessage (content : string).

(** The terminal and the agent as [run_write] sees them: the lines still to
    be read by [input()], and every message list passed to [agent.invoke]. *)
Record io : Type :=
  { stdin : list string; invocations : list (list message) }.

(** [input("> ")]: [None] stands for [EOFError]. *)
Definition input (st : io) : option string * io :=
  match stdin st with
  | [] => (None, st)
  | line :: rest =>
      (Some line, {| stdin := rest; invocations := invocations st |})
  end.

(** The branch of [run_write] that ran to its end. *)
Inductive branch : Type :=
| CommitSuggested
| UserCancelled
| RevisionCommitted
| RevisionCancelled
| CustomCommitted
| CustomCancelled
| UnknownOption
| EndOfInput.

(** The terminal states of the approval workflow. *)
Inductive terminal : Type := Accepted | Cancelled | Aborted.

Definition terminal_of (b : branch) : terminal :=
  match b with
  | CommitSuggested | RevisionCommitted | CustomCommitted => Accepted
  | UserCancelled | RevisionCancelled | CustomCancelled | UnknownOption =>
      Cancelled
  | EndOfInput => Aborted
  end.

Definition accept_words : list string := [""; "y"; "yes"; "accept"].
Definition cancel_words : list string := ["n"; "no"; "cancel"; "q"; "quit"].
Definition revise_words : list string := ["r"; "revise"; "feedback"].
Definition custom_words : list string := ["c"; "custom"].
Definition confirm_words : list string := [""; "y"; "yes"].

Section Workflow.
(** [agent.invoke({"messages": ...}, config)["messages"]]: the answer of
    the agent, as a function of the conversation.  What the agent does to
    the machine while it answers is the subject of [WriteMode] below. *)
Variable agent : list message -> list message.

Definition invoke (messages : list message) (st : io)
  : list message * io :=
  (agent messages,
   {| stdin := stdin st;
      invocations := (invocations st ++ [messages])%list |}).

Definition invoke_agent (m : request) (st : io) : list message * io :=
  invoke [HumanMessage m] st.

Definition continue_conversation (messages : list message)
           (new_message : request) (st : io) : list message * io :=
  invoke (messages ++ [HumanMessage new_message])%list st.

Definition run_write (repo_path : string) (st : io) : branch * io :=
  let (result, st) := invoke_agent (Suggest repo_path) st in
  match input st with
  | (None, st) => (EndOfInput, st)
  | (Some line, st) =>
  let user_input := strip line in
  if mem (lower user_input) accept_words then
    let (_, st) := continue_conversation result ExecuteSuggested st in
    (CommitSuggested, st)
  else if mem (lower user_input) cancel_words then (UserCancelled, st)
  else if mem (lower user_input) revise_words then
    match input st with
    | (None, st) => (EndOfInput, st)
    | (Some line, st) =>
    let feedback := strip line in
    let (result, st) := continue_conversation result (Revise feedback) st in
    match input st with
    | (None, st) => (EndOfInput, st)
    | (Some line, st) =>
    let confirm := strip line in
    if mem (lower confirm) confirm_words then
      let (_, st) := continue_conversation result ExecuteRevised st in
      (RevisionCommitted, st)
    else (RevisionCancelled, st)
    end end
  else if mem (lower user_input) custom_words then
    match input st with
    | (None, st) => (EndOfInput, st)
    | (Some line, st) =>
    let custom_msg := strip line in
    if truthy custom_msg then
      let (_, st) :=
        continue_conversation result (ExecuteCustom custom_msg) st in
      (CustomCommitted, st)
    else (CustomCancelled, st)
    end
  else (UnknownOption, st)
  end.
End Workflow.

(** The instruction each invocation added: the last message of its list. *)
Definition submitted (st : io) : list request :=
  flat_map (fun messages =>
              match rev messages with
              | HumanMessage r :: _ => [r]
              | _ => []
              end) (invocations st).

Definition commit_requests (st : io) : list request :=
  filter is_commit_request (submitted st).

(** A fresh terminal session: nothing invoked yet. *)
Definition session (lines : list string) : io :=
  {| stdin := lines; invocations := [] |}.

End Cli.

(* ================================================================= *)
(** ** The environment: what [git log] prints *)

Module GitLog.
Import PyStr.

Record commit_object : Type :=
  { sha : string; subject : string; body : string }.

(** One commit under [--format=%H%x1f%s%x1f%b%x00]: the expanded format,
    then the newline that ends every entry. *)
Definition entry_text (c : commit_object) : string :=
  sha c ++ chr US ++ subject c ++ chr US ++ body c ++ chr NUL ++ chr LF.

Fixpoint join (l : list string) : string :=
  match l with
  | [] => ""
  | x :: xs => x ++ join xs
  end.

(** Standard output of [git log -n<n> --format=...] on a history listed
    most recent first. *)
Definition log_stdout (history : list commit_object) (n : Z) : string :=
  join (map entry_text (firstn (Z.to_nat n) history)).

(** [c] does not occur in [s]. *)
Fixpoint absent (c : ascii) (s : string) : bool :=
  match s with
  | EmptyString => true
  | String a s' => negb (Ascii.eqb a c) && absent c s'
  end.

(** Git stores no NUL byte in a hash or a message. *)
Definition well_formed (c : commit_object) : bool :=
  absent NUL (sha c) && absent NUL (subject c) && absent NUL (body c).

End GitLog.

(* ================================================================= *)
(** ** Sample environments *)

Module Samples.
Import PyStr Subprocess GitLog.

(** A machine on which every command exits with status 0 and prints
    [out]. *)
Definition prints (out : string)
  : list string -> option Z -> unit -> outcome * unit :=
  fun _ _ w => (Completed 0 out "", w).

Definition tmp : string -> unit -> (string + string) * unit :=
  fun prefix w => (inl ("/tmp/" ++ prefix ++ "k3x9"), w).

Definition start : state unit := {| world := tt; spawned := [] |}.

Definition a_commit : commit_object :=
  {| sha := "3f2a9c0d5b7e4a1f8c6d2e0b9a7f5c3d1e8b6a4f";
     subject := "fix(auth): refresh token before expiry";
     body := "The token was refreshed after it expired." |}.

(** A history of 600 commits. *)
Definition long_history : list commit_object := repeat a_commit 600.

(** An agent that answers every conversation with one more message. *)
Definition replying_agent (messages : list Cli.message) : list Cli.message :=
  (messages ++ [Cli.AIMessage "feat(parser): accept trailing commas"])%list.

(** A checkpoint database holding two checkpoints of one conversation. *)
Definition one_thread_two_checkpoints : Agent.store :=
  {| Agent.SQLITE_AVAILABLE := true;
     Agent.CHECKPOINT_DB :=
       Agent.Table
         [ {| Agent.thread_id := "thread_3f9a1c2b7d4e";
              Agent.checkpoint_ns := "";
              Agent.checkpoint_id := "1ef4f797-8335-6428-8001-8a1503f9b875" |};
           {| Agent.thread_id := "thread_3f9a1c2b7d4e";
              Agent.checkpoint_ns := "";
              Agent.checkpoint_id := "1ef4f797-8335-6428-8002-0c6f8d2a41e7" |} ];
     Agent._memory_saver := None |}.


End Samples.

(* ================================================================= *)
(** ** tools.py: repository information *)

Module RepoInfo.
Import PyStr Json Subprocess.

Definition branch_argv (repo_path : string) : list string :=
  ["git"; "-C"; repo_path; "rev-parse"; "--abbrev-ref"; "HEAD"].
Definition remote_argv (repo_path : string) : list string :=
  ["git"; "-C"; repo_path; "remote"; "get-url"; "origin"].
Definition staged_quiet_argv (repo_path : string) : list string :=
  ["git"; "-C"; repo_path; "diff"; "--staged"; "--quiet"].

(** The two outer handlers of [get_repo_info_tool]. *)
Definition info_failure (e : exn) : json :=
  match e with
  | CalledProcessError _ err =>
      JDict [("error", JStr ("Not a git repository or git error: " ++ err))]
  | TimeoutExpired text | Exception text =>
      JDict [("error", JStr ("Unexpected error: " ++ text))]
  end.

Section WithEnvironment.
Variable World : Type.
Variable exec : list string -> option Z -> World -> outcome * World.
(** [os.path.abspath] *)
Variable abspath : string -> string.

(** The staged check and the result, once branch and remote are known. *)
Definition staged_check_and_result (repo_path branch remote : string)
           (st : state World) : json * state World :=
  match run exec (staged_quiet_argv repo_path) false None st with
  | (inl e, st') => (info_failure e, st')
  | (inr staged_check, st') =>
      let has_staged := negb (returncode staged_check =? 0)%Z in
      (JDict [("repo_path", JStr (abspath repo_path));
              ("branch", JStr branch);
              ("remote", JStr remote);
              ("has_staged_changes", JBool has_staged)], st')
  end.

Definition get_repo_info_tool (repo_path : string) (st : state World)
  : json * state World :=
  match run exec (branch_argv repo_path) true None st with
  | (inl e, st1) => (info_failure e, st1)
  | (inr branch_result, st1) =>
      let branch := strip (stdout branch_result) in
      match run exec (remote_argv repo_path) true None st1 with
      | (inr remote_result, st2) =>
          staged_check_and_result repo_path branch
                                  (strip (stdout remote_result)) st2
      | (inl (CalledProcessError _ _), st2) =>
          staged_check_and_result repo_path branch "No remote configured" st2
      | (inl e, st2) => (info_failure e, st2)
      end
  end.
End WithEnvironment.

Arguments get_repo_info_tool {World} exec abspath repo_path st.

End RepoInfo.

(* ================================================================= *)
(** ** models.py: the suggested commit *)

Module Suggested.
Import PyStr.

Record SuggestedCommit : Type :=
  { type : string;
    scope : option string;
    subject : string;
    body : option string }.

(** The text of an optional field when it is set and not empty
    ([if self.scope:], [if self.body:]). *)
Definition present (field : option string) : option string :=
  match field with
  | Some s => if truthy s then Some s else None
  | None => None
  end.

(** The first line built by [full_message]. *)
Definition header (c : SuggestedCommit) : string :=
  type c
  ++ match present (scope c) with
     | Some s => "(" ++ s ++ ")"
     | None => ""
     end
  ++ ": " ++ subject c.

Definition full_message (c : SuggestedCommit) : string :=
  match present (body c) with
  | Some b => header c ++ chr LF ++ chr LF ++ b
  | None => header c
  end.

End Suggested.

(* ================================================================= *)
(** ** commit_critic_agent.py: thread identifiers *)

Module ThreadIds.
Import PyStr.

(** [f"thread_{uuid.uuid4().hex[:12]}"], given the hex digits of the uuid
    drawn. *)
Definition generate_thread_id (uuid_hex : string) : string :=
  "thread_" ++ slice_to 12 uuid_hex.

Definition get_or_create_thread_id (thread_id : option string)
           (uuid_hex : string) : string :=
  match thread_id with
  | Some t => if truthy t then t else generate_thread_id uuid_hex
  | None => generate_thread_id uuid_hex
  end.

End ThreadIds.

(* ================================================================= *)
(** ** cli.py: listing and clearing threads *)

Module ThreadCli.
Import PyStr Agent.

(** The lines these two commands hand to [console.print], by the text they
    format. *)
Inductive printed : Type :=
| NoThreadsFound
| CheckpointDbLine
| ThreadsHeading (total : nat)
| StoredInLine
| ThreadBullet (thread : string)
| UseThreadHint
| ClearedThread (thread_id : string)
| ThreadNotFound (thread_id : string)
| ClearedCount (count : Z).

(** How a command ends: it returns, or rich's [MarkupError] leaves it. *)
Inductive ending : Type := Returned | MarkupError.

Section Console.
(** rich's [console.print] reads its argument as markup: it prints the
    line, or raises [MarkupError] when the text does not parse, as for a
    thread identifier that holds a closing tag with no opening one and is
    interpolated into the line. *)
Variable renders : printed -> bool.

(** [console.print] line after line: what reached the terminal, up to the
    first line that raises. *)
Fixpoint print_lines (lines : list printed) : list printed * ending :=
  match lines with
  | [] => ([], Returned)
  | line :: rest =>
      if renders line then
        let (shown, e) := print_lines rest in (line :: shown, e)
      else ([], MarkupError)
  end.

Definition run_list_threads (st : store) : list printed * ending :=
  let threads := list_threads st in
  match threads with
  | [] => print_lines [NoThreadsFound; CheckpointDbLine]
  | _ =>
      print_lines
        ([ThreadsHeading (List.length threads); StoredInLine]
           ++ map ThreadBullet threads ++ [UseThreadHint])%list
  end.

Definition clear_everything (st : store) : list printed * ending * store :=
  let (count, st') := clear_all_threads st in
  (print_lines [ClearedCount count], st').

(** The store is changed before the line is printed. *)
Definition run_clear_threads (thread_id : option string) (st : store)
  : list printed * ending * store :=
  match thread_id with
  | Some t =>
      if truthy t then
        let (cleared, st') := clear_thread t st in
        (print_lines [if cleared then ClearedThread t else ThreadNotFound t],
         st')
      else clear_everything st
  | None => clear_everything st
  end.
End Console.

(** A console that raises on a thread identifier holding a closing tag. *)
Fixpoint has_closing_tag (s : string) : bool :=
  match s with
  | EmptyString => false
  | String c rest =>
      match rest with
      | String d _ =>
          (Ascii.eqb c "["%char && Ascii.eqb d "/"%char) || has_closing_tag rest
      | EmptyString => false
      end
  end.

Definition tag_console (line : printed) : bool :=
  match line with
  | ThreadBullet t | ClearedThread t | ThreadNotFound t =>
      negb (has_closing_tag t)
  | _ => true
  end.

End ThreadCli.

(* ================================================================= *)
(** ** What the log of a well-formed history reads as *)

Module LogReading.
Import PyStr Json GitLog.

(** The object [get_commits_tool] builds for a commit. *)
Definition commit_json (c : commit_object) : json :=
  JDict [("hash", JStr (slice_to 8 (sha c)));
         ("message", JStr (strip (subject c)));
         ("body", JStr (strip (body c)))].

(** A commit with something to show: its subject or its body is not
    blank. *)
Definition visible (c : commit_object) : bool :=
  truthy (strip (subject c)) || truthy (strip (body c)).

(** A hash that is not empty and holds no white space; a subject and a body
    free of the two separator characters. *)
Definition plain (c : commit_object) : bool :=
  truthy (sha c) && negb (any_space (sha c)) && absent NUL (sha c)
  && absent US (subject c) && absent NUL (subject c)
  && absent US (body c) && absent NUL (body c).

(** The shape of one returned commit: the three keys in order, a hash of at
    most eight characters, message and body without white space around
    them. *)
Definition well_shaped (j : json) : Prop :=
  exists h m b,
    j = JDict [("hash", JStr h); ("message", JStr m); ("body", JStr b)]
    /\ (String.length h <= 8)%nat /\ strip m = m /\ strip b = b.

End LogReading.

(* ================================================================= *)
(** ** Scripted environments *)

Module Scripts.
Import PyStr Subprocess GitLog.

(** A machine that answers the commands it is given from a script, one
    outcome per command, and fails to start any command after that. *)
Definition scripted : list string -> option Z -> list outcome
                      -> outcome * list outcome :=
  fun _ _ script =>
    match script with
    | [] => (Raised "[Errno 2] No such file or directory: 'git'", [])
    | o :: rest => (o, rest)
    end.

Definition from_script (script : list outcome) : state (list outcome) :=
  {| world := script; spawned := [] |}.

Definition no_tmp : string -> list outcome -> (string + string) * list outcome :=
  fun _ w => (inr "[Errno 28] No space left on device", w).

Definition tmp_dir : string -> list outcome -> (string + string) * list outcome :=
  fun prefix w => (inl ("/tmp/" ++ prefix ++ "q7w2"), w).

Definition empty_commit : commit_object :=
  {| sha := "9b1d4e7a2c5f8036b9d1e4a7c2f5803b6d9e1a4c";
     subject := "";
     body := "" |}.

Definition wip_commit : commit_object :=
  {| sha := "5c8f2b6e0a4d93718e5c2b6f0a4d9371c8e5b2f6";
     subject := "wip ";
     body := "" |}.


Definition in_memory : Agent.store :=
  {| Agent.SQLITE_AVAILABLE := false;
     Agent.CHECKPOINT_DB := Agent.NoFile;
     Agent._memory_saver := None |}.

End Scripts.

(* ================================================================= *)
(** ** Telling commands apart *)

Module Commands.

(** [git -C <path> commit ...]: the one command that writes to a
    repository. *)
Definition is_commit_command (argv : list string) : bool :=
  match argv with
  | git :: c :: _ :: sub :: _ =>
      String.eqb git "git" && String.eqb c "-C" && String.eqb sub "commit"
  | _ => false
  end.

End Commands.

(* ================================================================= *)
(** ** cli.py: the write workflow with an agent that acts *)

Module WriteMode.
Import PyStr Subprocess Tools Commands Cli.

(** The [git commit] commands among those spawned so far. *)
Definition commits {World : Type} (m : state World) : list (list string) :=
  filter is_commit_command (spawned m).

(** The instruction an invocation ends with. *)
Definition last_request (messages : list message) : option request :=
  match rev messages with
  | HumanMessage r :: _ => Some r
  | _ => None
  end.

(** [agent.invoke]: while it answers, the agent may run the tools it was
    created with, on every invocation alike; [create_commit_tool] is among
    them (the tool of the [execute_commit] subagent).  The tools act on the
    machine, so an invocation takes a machine and returns one. *)
Definition acting_agent (World : Type) : Type :=
  list message -> state World -> list message * state World.

Section Workflow.
Variable World : Type.
Variable agent : acting_agent World.

Definition invoke (messages : list message) (st : io) (m : state World)
  : list message * io * state World :=
  let (answer, m') := agent messages m in
  (answer,
   {| stdin := stdin st;
      invocations := (invocations st ++ [messages])%list |},
   m').

Definition invoke_agent (r : request) (st : io) (m : state World)
  : list message * io * state World :=
  invoke [HumanMessage r] st m.

Definition continue_conversation (messages : list message)
           (new_message : request) (st : io) (m : state World)
  : list message * io * state World :=
  invoke (messages ++ [HumanMessage new_message])%list st m.

Definition run_write (repo_path : string) (st : io) (m : state World)
  : branch * io * state World :=
  let '(result, st, m) := invoke_agent (Suggest repo_path) st m in
  match input st with
  | (None, st) => (EndOfInput, st, m)
  | (Some line, st) =>
  let user_input := strip line in
  if mem (lower user_input) accept_words then
    let '(_, st, m) := continue_conversation result ExecuteSuggested st m in
    (CommitSuggested, st, m)
  else if mem (lower user_input) cancel_words then (UserCancelled, st, m)
  else if mem (lower user_input) revise_words then
    match input st with
    | (None, st) => (EndOfInput, st, m)
    | (Some line, st) =>
    let feedback := strip line in
    let '(result, st, m) :=
      continue_conversation result (Revise feedback) st m in
    match input st with
    | (None, st) => (EndOfInput, st, m)
    | (Some line, st) =>
    let confirm := strip line in
    if mem (lower confirm) confirm_words then
      let '(_, st, m) := continue_conversation result ExecuteRevised st m in
      (RevisionCommitted, st, m)
    else (RevisionCancelled, st, m)
    end end
  else if mem (lower user_input) custom_words then
    match input st with
    | (None, st) => (EndOfInput, st, m)
    | (Some line, st) =>
    let custom_msg := strip line in
    if truthy custom_msg then
      let '(_, st, m) :=
        continue_conversation result (ExecuteCustom custom_msg) st m in
      (CustomCommitted, st, m)
    else (CustomCancelled, st, m)
    end
  else (UnknownOption, st, m)
  end.
End Workflow.

Arguments run_write {World} agent repo_path st m.

(** *** What the workflow relies on the agent for *)

(** The agent runs no commit on an invocation that does not end with one
    of the three execute instructions. *)
Definition commits_only_when_asked {World : Type} (agent : acting_agent World)
  : Prop :=
  forall messages m,
    (forall r, last_request messages = Some r -> is_commit_request r = false) ->
    commits (snd (agent messages m)) = commits m.

(** The agent carries out an execute instruction by one call of
    [create_commit_tool] in [repo_path]: with the text it is given for
    [ExecuteCustom], with some message that is not blank otherwise. *)
Definition runs_the_commit {World : Type}
           (exec : list string -> option Z -> World -> outcome * World)
           (agent : acting_agent World) (repo_path : string) : Prop :=
  forall messages m r,
    last_request messages = Some r ->
    match r with
    | ExecuteCustom custom_msg =>
        commits (snd (agent messages m))
        = commits (snd (create_commit_tool exec custom_msg repo_path m))
    | ExecuteSuggested | ExecuteRevised =>
        exists message,
          strip message <> ""
          /\ commits (snd (agent messages m))
             = commits (snd (create_commit_tool exec message repo_path m))
    | Suggest _ | Revise _ => True
    end.

Definition follows_instructions {World : Type}
           (exec : list string -> option Z -> World -> outcome * World)
           (agent : acting_agent World) (repo_path : string) : Prop :=
  commits_only_when_asked agent /\ runs_the_commit exec agent repo_path.

End WriteMode.

(** ** Agents to run the workflow with *)

Module Agents.
Import PyStr Subprocess Tools Cli WriteMode.

(** The message the sample agents suggest. *)
Definition suggested : string := "feat(parser): accept trailing commas".

Section WithEnvironment.
Variable World : Type.
Variable exec : list string -> option Z -> World -> outcome * World.

(** An agent that answers and runs no tool. *)
Definition idle_agent : acting_agent World :=
  fun messages m =>
    ((messages ++ [AIMessage suggested])%list, m).

(** An agent that commits the staged changes while it answers, whatever it
    was asked. *)
Definition hasty_agent : acting_agent World :=
  fun messages m =>
    let (_, m') := create_commit_tool exec "wip" "." m in
    ((messages ++ [AIMessage "Committed as wip."])%list, m').

(** An agent that commits when it is told to and not before: its own
    suggestion on [ExecuteSuggested] and [ExecuteRevised], the text it is
    given on [ExecuteCustom]. *)
Definition obedient_agent (suggestion : string) : acting_agent World :=
  fun messages m =>
    match last_request messages with
    | Some ExecuteSuggested | Some ExecuteRevised =>
        let (_, m') := create_commit_tool exec suggestion "." m in
        ((messages ++ [AIMessage "Committed."])%list, m')
    | Some (ExecuteCustom custom_msg) =>
        let (_, m') := create_commit_tool exec custom_msg "." m in
        ((messages ++ [AIMessage "Committed."])%list, m')
    | _ => ((messages ++ [AIMessage suggestion])%list, m)
    end.

(** An agent that, told to commit a custom text, commits it under a
    conventional prefix of its own. *)
Definition rewording_agent : acting_agent World :=
  fun messages m =>
    match last_request messages with
    | Some (ExecuteCustom custom_msg) =>
        let (_, m') :=
          create_commit_tool exec ("chore: " ++ custom_msg) "." m in
        ((messages ++ [AIMessage "Committed."])%list, m')
    | _ => ((messages ++ [AIMessage "docs: describe the change"])%list, m)
    end.
End WithEnvironment.

Arguments idle_agent {World} messages m.
Arguments hasty_agent {World} exec messages m.
Arguments obedient_agent {World} exec suggestion messages m.
Arguments rewording_agent {World} exec messages m.

End Agents.

(* ================================================================= *)
(** * Properties *)

(** ** Strings *)

Section StringFacts.
Import PyStr GitLog.

Lemma string_app_assoc (a b c : string) : (a ++ b) ++ c = a ++ (b ++ c).
Proof. induction a as [|x a IH]; simpl; [reflexivity | now rewrite IH]. Qed.

Lemma string_app_nil_r (a : string) : a ++ "" = a.
Proof. induction a as [|x a IH]; simpl; [reflexivity | now rewrite IH]. Qed.

Lemma absent_app c a b : absent c (a ++ b) = absent c a && absent c b.
Proof.
  induction a as [|x a IH]; simpl; [reflexivity|].
  rewrite IH. now rewrite andb_assoc.
Qed.

Lemma split_not_nil sep s : split sep s <> [].
Proof.
  destruct s as [|c s]; simpl; [discriminate|].
  destruct (Ascii.eqb c sep); [discriminate|].
  destruct (split sep s); discriminate.
Qed.

(** Splitting at the first separator. *)
Lemma split_app_sep sep a b :
  absent sep a = true ->
  split sep (a ++ String sep b) = a :: split sep b.
Proof.
  induction a as [|x a IH]; simpl; intros H.
  - now rewrite Ascii.eqb_refl.
  - apply andb_true_iff in H as [Hx Ha].
    apply negb_true_iff in Hx. rewrite Hx, (IH Ha). reflexivity.
Qed.

Lemma split_absent sep a : absent sep a = true -> split sep a = [a].
Proof.
  induction a as [|x a IH]; simpl; intros H; [reflexivity|].
  apply andb_true_iff in H as [Hx Ha].
  apply negb_true_iff in Hx. rewrite Hx, (IH Ha). reflexivity.
Qed.

Lemma lstrip_first s c : first_char (lstrip s) = Some c -> isspace c = false.
Proof.
  induction s as [|x s IH]; simpl; [discriminate|].
  destruct (isspace x) eqn:E; [exact IH|].
  simpl. intros [= <-]. exact E.
Qed.

Lemma rstrip_first s c :
  first_char (rstrip s) = Some c -> first_char s = Some c.
Proof.
  destruct s as [|x s]; simpl; [discriminate|].
  destruct (rstrip s); [destruct (isspace x)|]; simpl; congruence.
Qed.

Lemma rstrip_last s c : last_char (rstrip s) = Some c -> isspace c = false.
Proof.
  induction s as [|x s IH]; simpl; [discriminate|].
  destruct (rstrip s) as [|y r] eqn:E.
  - destruct (isspace x) eqn:Ex; simpl; [discriminate|].
    intros [= <-]. exact Ex.
  - simpl. exact IH.
Qed.

Lemma strip_first s c : first_char (strip s) = Some c -> isspace c = false.
Proof.
  unfold strip. intros H. apply rstrip_first in H. now apply lstrip_first in H.
Qed.

Lemma strip_last s c : last_char (strip s) = Some c -> isspace c = false.
Proof. unfold strip. apply rstrip_last. Qed.

Lemma last_char_none s : last_char s = None -> s = "".
Proof.
  induction s as [|x s IH]; [reflexivity|].
  simpl. destruct s; [discriminate|]. intros H. now specialize (IH H).
Qed.

(** A string that begins or ends with white space is changed by [strip]. *)
Lemma strip_changes s c :
  (first_char s = Some c \/ last_char s = Some c) -> isspace c = true ->
  strip s <> s.
Proof.
  intros [H|H] Hc E; rewrite <- E in H.
  - apply strip_first in H. congruence.
  - apply strip_last in H. congruence.
Qed.

(** Trailing white space never reaches into a prefix free of white space. *)
Lemma prefix_rstrip s : forall p,
  any_space p = false -> String.prefix p (rstrip s) = String.prefix p s.
Proof.
  induction s as [|c s IH]; intros p Hp; [reflexivity|].
  destruct p as [|a p]; [now destruct (rstrip (String c s))|].
  simpl in Hp. apply orb_false_iff in Hp as [Ha Hp].
  specialize (IH p Hp). simpl.
  destruct (rstrip s) as [|y r] eqn:E.
  - destruct (isspace c) eqn:Ec; simpl;
      destruct (ascii_dec a c) as [->|]; try reflexivity; try congruence.
    rewrite <- IH. now destruct p.
  - simpl. destruct (ascii_dec a c); [exact IH | reflexivity].
Qed.

Lemma lstrip_fixed s :
  (forall c, first_char s = Some c -> isspace c = false) -> lstrip s = s.
Proof.
  destruct s as [|x s]; [reflexivity|]. simpl. intros H.
  now rewrite (H x eq_refl).
Qed.

Lemma rstrip_idempotent s : rstrip (rstrip s) = rstrip s.
Proof.
  induction s as [|c s IH]; [reflexivity|]. simpl.
  destruct (rstrip s) as [|y r] eqn:E.
  - destruct (isspace c) eqn:Ec; [reflexivity|]. simpl. now rewrite Ec.
  - simpl in IH |- *. now rewrite IH.
Qed.

Lemma strip_idempotent s : strip (strip s) = strip s.
Proof.
  unfold strip at 1.
  rewrite (lstrip_fixed (strip s)) by apply strip_first.
  unfold strip. apply rstrip_idempotent.
Qed.

Lemma strip_empty : strip "" = "".
Proof. reflexivity. Qed.

Lemma truthy_false s : truthy s = false <-> s = "".
Proof.
  unfold truthy. rewrite negb_false_iff. apply String.eqb_eq.
Qed.

Lemma truthy_true s : truthy s = true <-> s <> "".
Proof.
  unfold truthy. rewrite negb_true_iff. apply String.eqb_neq.
Qed.

Lemma mem_In x l : mem x l = true <-> In x l.
Proof.
  unfold mem. rewrite existsb_exists. split.
  - intros [y [Hy E]]. apply String.eqb_eq in E. now subst.
  - intros H. exists x. split; [exact H | apply String.eqb_refl].
Qed.
End StringFacts.

(** ** Reading the log *)

Section LogFacts.
Import PyStr Json GitLog Tools.

Lemma parse_entry_length e : (List.length (parse_entry e) <= 1)%nat.
Proof.
  unfold parse_entry.
  destruct (negb (truthy (strip e))); [simpl; lia|].
  destruct (2 <=? List.length (split US (strip e)))%nat; simpl; lia.
Qed.

Lemma parse_entry_blank e : strip e = "" -> parse_entry e = [].
Proof. unfold parse_entry. intros ->. reflexivity. Qed.

Lemma parse_log_cons a b :
  absent NUL a = true ->
  parse_log (a ++ String NUL b) = (parse_entry a ++ parse_log b)%list.
Proof.
  intros H. unfold parse_log. rewrite (split_app_sep NUL a b H). reflexivity.
Qed.

Lemma entry_text_shape p c :
  p ++ entry_text c
  = (p ++ sha c ++ chr US ++ subject c ++ chr US ++ body c)
      ++ String NUL (chr LF).
Proof.
  unfold entry_text, chr. rewrite !string_app_assoc. simpl.
  repeat (rewrite ?string_app_assoc; simpl; f_equal).
Qed.

Lemma absent_entry p c :
  absent NUL p = true -> well_formed c = true ->
  absent NUL (p ++ sha c ++ chr US ++ subject c ++ chr US ++ body c) = true.
Proof.
  unfold well_formed. intros Hp H.
  apply andb_true_iff in H as [H Hb]. apply andb_true_iff in H as [Hs Hm].
  rewrite !absent_app, Hp, Hs, Hm, Hb. reflexivity.
Qed.

(** After any blank, NUL-free lead, a log of [n] entries parses to at most
    [n] commits. *)
Lemma parse_log_entries cs : forall p,
  absent NUL p = true -> strip p = "" ->
  forallb well_formed cs = true ->
  (List.length (parse_log (p ++ join (map entry_text cs))) <= List.length cs)%nat.
Proof.
  induction cs as [|c cs IH]; intros p Hp Hblank Hwf; simpl.
  - rewrite string_app_nil_r. unfold parse_log.
    rewrite (split_absent NUL p Hp). simpl.
    rewrite (parse_entry_blank p Hblank). simpl. lia.
  - simpl in Hwf. apply andb_true_iff in Hwf as [Hc Hcs].
    rewrite <- string_app_assoc, entry_text_shape.
    set (lead := p ++ sha c ++ chr US ++ subject c ++ chr US ++ body c).
    rewrite (string_app_assoc lead).
    change (String NUL (chr LF) ++ join (map entry_text cs))
      with (String NUL (chr LF ++ join (map entry_text cs))).
    rewrite parse_log_cons by now apply absent_entry.
    rewrite length_app.
    pose proof (parse_entry_length lead).
    specialize (IH (chr LF) eq_refl eq_refl Hcs).
    lia.
Qed.

Lemma forallb_firstn {A} (f : A -> bool) n : forall l,
  forallb f l = true -> forallb f (firstn n l) = true.
Proof.
  induction n as [|n IH]; intros [|x l] H; simpl in *; try reflexivity.
  apply andb_true_iff in H as [Hx Hl]. now rewrite Hx, (IH l Hl).
Qed.

Lemma parse_log_stdout history n :
  forallb well_formed history = true ->
  (List.length (parse_log (log_stdout history n))
   <= Nat.min (Z.to_nat n) (List.length history))%nat.
Proof.
  intros Hwf. unfold log_stdout.
  rewrite <- (length_firstn (Z.to_nat n) history).
  apply (parse_log_entries (firstn (Z.to_nat n) history) "" eq_refl eq_refl).
  now apply forallb_firstn.
Qed.

Lemma clamp_limit_range limit : (1 <= clamp_limit limit <= 500)%Z.
Proof. unfold clamp_limit. lia. Qed.
End LogFacts.


(** ** The git tools *)

Section ToolFacts.
Import PyStr Json Subprocess GitLog Tools.
Variable World : Type.
Variable exec : list string -> option Z -> World -> outcome * World.
Variable mkdtemp : string -> World -> (string + string) * World.

Lemma run_spawned argv check timeout (st : state World) :
  spawned (snd (run exec argv check timeout st)) = (spawned st ++ [argv])%list.
Proof.
  unfold run. destruct (exec argv timeout (world st)) as [[rc out err|t|t] w];
    simpl; [destruct (check && negb (rc =? 0)%Z)|..]; reflexivity.
Qed.

Lemma run_completed argv timeout (st : state World) out err w :
  exec argv timeout (world st) = (Completed 0 out err, w) ->
  run exec argv true timeout st
  = (inr {| returncode := 0; stdout := out; stderr := err |},
     {| world := w; spawned := (spawned st ++ [argv])%list |}).
Proof. unfold run. intros ->. reflexivity. Qed.

Lemma get_commits_tool_spawned repo_path limit (st : state World) :
  spawned (snd (get_commits_tool exec repo_path limit st))
  = (spawned st ++ [log_argv repo_path (clamp_limit limit)])%list.
Proof.
  unfold get_commits_tool.
  rewrite <- (run_spawned (log_argv repo_path (clamp_limit limit)) true None st).
  destruct (run exec _ true None st) as [[[rc err|t|t]|res] st']; reflexivity.
Qed.

Lemma get_commits_tool_same_clamp repo_path a b (st : state World) :
  clamp_limit a = clamp_limit b ->
  get_commits_tool exec repo_path a st = get_commits_tool exec repo_path b st.
Proof. unfold get_commits_tool. now intros ->. Qed.

(** C5: [get_commits_tool] asks git for [max(1, min(limit, 500))] commits,
    a number between 1 and 500: a limit of 0 or below behaves as the limit 1,
    a limit of 500 or above as the limit 500, and whenever git answers
    [log -n<k>] on a history of any length, at most [k], hence at most 500,
    commits are returned; when git fails, none are. *)
Theorem get_commits_tool_clamps_limit
        (repo_path : string) (limit : Z) (st : state World) :
  let k := clamp_limit limit in
  let r := get_commits_tool exec repo_path limit st in
  (1 <= k <= 500)%Z
  /\ ((limit <= 0)%Z -> k = 1%Z /\ r = get_commits_tool exec repo_path 1 st)
  /\ ((500 <= limit)%Z -> k = 500%Z /\ r = get_commits_tool exec repo_path 500 st)
  /\ ((1 <= limit <= 500)%Z -> k = limit)
  /\ spawned (snd r) = (spawned st ++ [log_argv repo_path k])%list
  /\ (forall history err w,
         forallb well_formed history = true ->
         exec (log_argv repo_path k) None (world st)
         = (Completed 0 (log_stdout history k) err, w) ->
         commits_of (fst r) = parse_log (log_stdout history k)
         /\ (Z.of_nat (List.length (commits_of (fst r))) <= k)%Z
         /\ (List.length (commits_of (fst r)) <= 500)%nat)
  /\ (forall o w,
         exec (log_argv repo_path k) None (world st) = (o, w) ->
         (forall out err, o <> Completed 0 out err) ->
         commits_of (fst r) = []).
Proof.
  intros k r. pose proof (clamp_limit_range limit) as Hk. fold k in Hk.
  split; [exact Hk|].
  split; [intros H; split; [unfold k, clamp_limit; lia|];
          apply get_commits_tool_same_clamp; unfold clamp_limit; lia|].
  split; [intros H; split; [unfold k, clamp_limit; lia|];
          apply get_commits_tool_same_clamp; unfold clamp_limit; lia|].
  split; [intros H; unfold k, clamp_limit; lia|].
  split; [apply get_commits_tool_spawned|].
  split.
  - intros history err w Hwf Hexec.
    assert (commits_of (fst r) = parse_log (log_stdout history k)) as E.
    { unfold r, get_commits_tool. fold k.
      rewrite (run_completed _ None st _ _ _ Hexec). reflexivity. }
    rewrite E. pose proof (parse_log_stdout history k Hwf) as Hlen.
    repeat split; lia.
  - intros o w Hexec Hfail. unfold r, get_commits_tool, run. fold k.
    rewrite Hexec. destruct o as [rc out err|t|t]; try reflexivity.
    destruct (rc =? 0)%Z eqn:Erc; [|reflexivity].
    apply Z.eqb_eq in Erc. subst rc. now destruct (Hfail out err).
Qed.

Lemma has_allowed_protocol_strip url :
  (forall c, first_char url = Some c -> isspace c = false) ->
  has_allowed_protocol (strip url) = has_allowed_protocol url.
Proof.
  intros H. unfold strip. rewrite (lstrip_fixed url H).
  unfold has_allowed_protocol, startswith.
  now rewrite !prefix_rstrip by reflexivity.
Qed.

(** C6: a URL that, once trimmed, is empty or begins with none of
    [https://], [http://], [git://], [git@] gets a failure value back and
    leaves the machine untouched: no directory made, no command spawned.
    For a URL that does not begin with white space the test on the URL as
    given decides the same.  [ftp://example.com/x] and the empty URL are
    such URLs. *)
Theorem clone_repo_tool_rejects_foreign_scheme (st : state World) :
  (forall url,
      has_allowed_protocol (strip url) = false
      \/ (has_allowed_protocol url = false
          /\ forall c, first_char url = Some c -> isspace c = false) ->
      exists text,
        clone_repo_tool exec mkdtemp url st = (clone_failure text, st)
        /\ get "success" (clone_failure text) = Some (JBool false)
        /\ get "repo_path" (clone_failure text) = Some JNull
        /\ (text = "Empty URL provided"
            \/ text = "Invalid URL protocol. Use https://, http://, git://, or git@ URLs"))
  /\ clone_repo_tool exec mkdtemp "ftp://example.com/x" st
     = (clone_failure
          "Invalid URL protocol. Use https://, http://, git://, or git@ URLs",
        st)
  /\ clone_repo_tool exec mkdtemp "" st
     = (clone_failure "Empty URL provided", st).
Proof.
  split; [|split; reflexivity].
  intros url H.
  assert (has_allowed_protocol (strip url) = false) as H'.
  { destruct H as [H|[H Hfirst]]; [exact H|].
    now rewrite has_allowed_protocol_strip. }
  clear H. rename H' into H. unfold clone_repo_tool.
  destruct (truthy (strip url)); simpl.
  - rewrite H. simpl. eexists. repeat split. now right.
  - eexists. repeat split. now left.
Qed.

(** C7: when the three [git diff --staged] commands succeed and the
    name-only one prints no file name, the result is exactly [has_staged]
    false with the guidance message: it has no [diff], [stat], [files] or
    [file_count] field. *)
Theorem get_staged_diff_tool_nothing_staged
        (repo_path : string) (st : state World)
        (stat diff names e1 e2 e3 : string) (w1 w2 w3 : World) :
  exec (staged_stat_argv repo_path) None (world st) = (Completed 0 stat e1, w1) ->
  exec (staged_diff_argv repo_path) None w1 = (Completed 0 diff e2, w2) ->
  exec (staged_names_argv repo_path) None w2 = (Completed 0 names e3, w3) ->
  strip names = "" ->
  let r := fst (get_staged_diff_tool exec repo_path st) in
  r = JDict [("has_staged", JBool false);
             ("message",
              JStr "No staged changes found. Stage files with 'git add' first.")]
  /\ get "has_staged" r = Some (JBool false)
  /\ has_key "message" r = true
  /\ has_key "diff" r = false
  /\ has_key "stat" r = false
  /\ has_key "files" r = false
  /\ has_key "file_count" r = false.
Proof.
  intros H1 H2 H3 Hnames r.
  assert (r = JDict [("has_staged", JBool false);
                     ("message",
                      JStr "No staged changes found. Stage files with 'git add' first.")])
    as E.
  { unfold r, get_staged_diff_tool.
    rewrite (run_completed _ None st _ _ _ H1).
    rewrite (run_completed _ None (Build_state w1 _) _ _ _ H2).
    rewrite (run_completed _ None (Build_state w2 _) _ _ _ H3).
    unfold staged_files. simpl stdout. rewrite Hnames. reflexivity. }
  rewrite E. repeat split.
Qed.

Lemma strip_or_empty message :
  (if truthy message then strip message else "") = strip message.
Proof.
  destruct (truthy message) eqn:E; [reflexivity|].
  apply truthy_false in E. now subst.
Qed.

Lemma create_commit_tool_blank message repo_path (st : state World) :
  strip message = "" ->
  create_commit_tool exec message repo_path st
  = (JDict [("success", JBool false);
            ("error", JStr "Empty commit message provided")], st).
Proof.
  intros E. unfold create_commit_tool. rewrite strip_or_empty, E. reflexivity.
Qed.

Lemma create_commit_tool_spawned message repo_path (st : state World) :
  strip message <> "" ->
  spawned (snd (create_commit_tool exec message repo_path st))
  = (spawned st ++ [commit_argv repo_path (strip message)])%list.
Proof.
  intros E. unfold create_commit_tool. rewrite strip_or_empty.
  apply truthy_true in E. rewrite E. simpl negb. cbv iota.
  rewrite <- (run_spawned (commit_argv repo_path (strip message)) true None st).
  destruct (run exec _ true None st) as [[[rc err|t|t]|res] st']; reflexivity.
Qed.

(** C10: [create_commit_tool] works on the trimmed message.  A message that
    is empty or all white space gives the error value and spawns nothing;
    any other message is committed as [message.strip()], so a message that
    begins or ends with white space is never the [-m] argument as given. *)
Theorem create_commit_tool_strips_message
        (message repo_path : string) (st : state World) :
  let r := create_commit_tool exec message repo_path st in
  (strip message = "" ->
   r = (JDict [("success", JBool false);
               ("error", JStr "Empty commit message provided")], st))
  /\ (strip message <> "" ->
      spawned (snd r)
      = (spawned st ++ [commit_argv repo_path (strip message)])%list)
  /\ (forall c,
         first_char message = Some c \/ last_char message = Some c ->
         isspace c = true ->
         spawned (snd r) <> (spawned st ++ [commit_argv repo_path message])%list).
Proof.
  intros r.
  pose proof (create_commit_tool_blank message repo_path st) as Hempty.
  pose proof (create_commit_tool_spawned message repo_path st) as Hfull.
  fold r in Hempty, Hfull.
  split; [exact Hempty|]. split; [exact Hfull|].
  intros c Hc Hsp Heq.
  pose proof (strip_changes message c Hc Hsp) as Hneq.
  destruct (string_dec (strip message) "") as [E|E].
  - rewrite (Hempty E) in Heq. simpl in Heq.
    rewrite <- (app_nil_r (spawned st)) in Heq at 1.
    apply app_inv_head in Heq. discriminate.
  - rewrite (Hfull E) in Heq. apply app_inv_head in Heq.
    injection Heq as Heq. contradiction.
Qed.
End ToolFacts.

(** ** The write workflow *)

Section WorkflowFacts.
Import PyStr Cli.

Lemma submitted_snoc lines inv result r :
  submitted {| stdin := lines;
               invocations := (inv ++ [(result ++ [HumanMessage r])%list])%list |}
  = (submitted {| stdin := lines; invocations := inv |} ++ [r])%list.
Proof.
  unfold submitted. simpl. rewrite flat_map_app. simpl.
  rewrite rev_unit. reflexivity.
Qed.

Lemma mem_app x l1 l2 : mem x (l1 ++ l2)%list = mem x l1 || mem x l2.
Proof. unfold mem. apply existsb_app. Qed.

End WorkflowFacts.

(** ** The write workflow and the commit *)

Section WriteModeFacts.
Import PyStr Subprocess Tools Commands Cli WriteMode.
Variable World : Type.
Variable exec : list string -> option Z -> World -> outcome * World.
Variable agent : acting_agent World.

Lemma last_request_snoc messages r :
  last_request (messages ++ [HumanMessage r])%list = Some r.
Proof. unfold last_request. now rewrite rev_unit. Qed.

Lemma is_commit_command_commit_argv repo_path message :
  is_commit_command (commit_argv repo_path message) = true.
Proof. reflexivity. Qed.

(** What one call of [create_commit_tool] adds to the commits made. *)
Lemma commits_create_commit_tool message repo_path (m : state World) :
  commits (snd (create_commit_tool exec message repo_path m))
  = (commits m
       ++ if truthy (strip message)
          then [commit_argv repo_path (strip message)] else [])%list.
Proof.
  unfold commits. destruct (truthy (strip message)) eqn:E.
  - apply truthy_true in E.
    rewrite (create_commit_tool_spawned World exec message repo_path m E).
    rewrite filter_app. cbn [filter].
    now rewrite is_commit_command_commit_argv.
  - apply truthy_false in E.
    rewrite (create_commit_tool_blank World exec message repo_path m E).
    cbn [snd]. now rewrite app_nil_r.
Qed.

(** An invocation that ends with no execute instruction leaves the commits
    as they were, for an agent that commits only when asked. *)
Lemma quiet_invocation messages r (m : state World) :
  commits_only_when_asked agent ->
  is_commit_request r = false ->
  commits (snd (agent (messages ++ [HumanMessage r])%list m)) = commits m.
Proof.
  intros Hq Hr. apply Hq. intros r' E.
  rewrite last_request_snoc in E. now injection E as <-.
Qed.

Lemma quiet_first_invocation r (m : state World) :
  commits_only_when_asked agent ->
  is_commit_request r = false ->
  commits (snd (agent [HumanMessage r] m)) = commits m.
Proof. intros Hq Hr. now apply (quiet_invocation [] r m). Qed.

Ltac run_write_step :=
  unfold run_write, invoke_agent, continue_conversation, invoke, input, session;
  cbn [stdin invocations fst snd].

Ltac call_agent :=
  match goal with
  | |- context [agent ?ms ?m] =>
      let a := fresh "answer" in
      let m' := fresh "m" in
      destruct (agent ms m) as [a m'] eqn:?; cbn [stdin invocations fst snd]
  end.

Ltac submitted_done :=
  unfold commit_requests;
  repeat match goal with
         | |- context [submitted {| stdin := ?l;
                                   invocations := (?i ++ [(?m ++ [HumanMessage ?r])%list])%list |}] =>
             rewrite (submitted_snoc l i m r)
         end;
  reflexivity.

(** Every run of [run_write], branch by branch: the lines it read, the
    tests that held, the instructions it handed to the agent, and the
    invocation the machine it leaves comes from. *)
Lemma run_write_cases repo lines (m : state World) :
  let r := run_write agent repo (session lines) m in
  let st := snd (fst r) in
  let a0 := agent [HumanMessage (Suggest repo)] m in
  match fst (fst r) with
  | CommitSuggested =>
      exists l rest, lines = l :: rest
        /\ mem (lower (strip l)) accept_words = true
        /\ submitted st = [Suggest repo; ExecuteSuggested]
        /\ snd r = snd (agent (fst a0 ++ [HumanMessage ExecuteSuggested])%list
                              (snd a0))
  | UserCancelled =>
      exists l rest, lines = l :: rest
        /\ mem (lower (strip l)) cancel_words = true
        /\ submitted st = [Suggest repo]
        /\ snd r = snd a0
  | RevisionCommitted =>
      exists l f c rest, lines = l :: f :: c :: rest
        /\ mem (lower (strip l)) revise_words = true
        /\ mem (lower (strip c)) confirm_words = true
        /\ submitted st = [Suggest repo; Revise (strip f); ExecuteRevised]
        /\ let a1 := agent (fst a0 ++ [HumanMessage (Revise (strip f))])%list
                           (snd a0) in
           snd r = snd (agent (fst a1 ++ [HumanMessage ExecuteRevised])%list
                              (snd a1))
  | RevisionCancelled =>
      exists l f c rest, lines = l :: f :: c :: rest
        /\ mem (lower (strip l)) revise_words = true
        /\ mem (lower (strip c)) confirm_words = false
        /\ submitted st = [Suggest repo; Revise (strip f)]
        /\ snd r = snd (agent (fst a0 ++ [HumanMessage (Revise (strip f))])%list
                              (snd a0))
  | CustomCommitted =>
      exists l t rest, lines = l :: t :: rest
        /\ mem (lower (strip l)) custom_words = true
        /\ strip t <> ""
        /\ submitted st = [Suggest repo; ExecuteCustom (strip t)]
        /\ snd r = snd (agent (fst a0 ++ [HumanMessage (ExecuteCustom (strip t))])%list
                              (snd a0))
  | CustomCancelled =>
      exists l t rest, lines = l :: t :: rest
        /\ mem (lower (strip l)) custom_words = true
        /\ strip t = ""
        /\ submitted st = [Suggest repo]
        /\ snd r = snd a0
  | UnknownOption =>
      exists l rest, lines = l :: rest
        /\ mem (lower (strip l))
             (accept_words ++ cancel_words ++ revise_words ++ custom_words)%list
           = false
        /\ submitted st = [Suggest repo]
        /\ snd r = snd a0
  | EndOfInput =>
      (submitted st = [Suggest repo] /\ snd r = snd a0)
      \/ exists f,
          submitted st = [Suggest repo; Revise f]
          /\ snd r = snd (agent (fst a0 ++ [HumanMessage (Revise f)])%list
                                (snd a0))
  end.
Proof.
  cbv zeta. run_write_step.
  destruct (agent [HumanMessage (Suggest repo)] m) as [result m0] eqn:E0.
  cbn [stdin invocations fst snd].
  destruct lines as [|l rest]; cbn [stdin invocations fst snd].
  { left. split; reflexivity. }
  destruct (mem (lower (strip l)) accept_words) eqn:Ea; cbn [fst snd].
  { destruct (agent (result ++ [HumanMessage ExecuteSuggested])%list m0)
      as [result1 m1] eqn:E1.
    cbn [stdin invocations fst snd].
    exists l, rest. repeat split; try assumption. submitted_done. }
  destruct (mem (lower (strip l)) cancel_words) eqn:Ec; cbn [fst snd].
  { exists l, rest. repeat split; try assumption. }
  destruct (mem (lower (strip l)) revise_words) eqn:Er; cbn [fst snd].
  { destruct rest as [|f rest]; cbn [stdin invocations fst snd].
    { left. split; reflexivity. }
    destruct (agent (result ++ [HumanMessage (Revise (strip f))])%list m0)
      as [result1 m1] eqn:E1.
    cbn [stdin invocations fst snd].
    destruct rest as [|c rest]; cbn [stdin invocations fst snd].
    { right. exists (strip f). rewrite E1. split; [submitted_done | reflexivity]. }
    destruct (mem (lower (strip c)) confirm_words) eqn:Ey; cbn [fst snd].
    - destruct (agent (result1 ++ [HumanMessage ExecuteRevised])%list m1)
        as [result2 m2] eqn:E2.
      cbn [stdin invocations fst snd].
      exists l, f, c, rest. rewrite E1. cbn [fst snd]. rewrite E2.
      repeat split; try assumption. submitted_done.
    - exists l, f, c, rest. rewrite E1.
      repeat split; try assumption. submitted_done. }
  destruct (mem (lower (strip l)) custom_words) eqn:Eu; cbn [fst snd].
  { destruct rest as [|t rest]; cbn [stdin invocations fst snd].
    { left. split; reflexivity. }
    destruct (truthy (strip t)) eqn:Em; cbn [fst snd].
    - destruct (agent (result ++ [HumanMessage (ExecuteCustom (strip t))])%list m0)
        as [result1 m1] eqn:E1.
      cbn [stdin invocations fst snd].
      exists l, t, rest. repeat split; try assumption.
      + now apply truthy_true.
      + submitted_done.
      + now rewrite E1.
    - exists l, t, rest. repeat split; try assumption.
      now apply truthy_false. }
  exists l, rest. repeat split.
  rewrite !mem_app, Ea, Ec, Er, Eu. reflexivity.
Qed.

(** The commits a run leaves behind, for an agent that commits only when
    asked: those it found, unless the run ended with an execute
    instruction, and then whatever that one invocation made of them. *)
Lemma run_write_commits repo lines (m : state World) :
  commits_only_when_asked agent ->
  let r := run_write agent repo (session lines) m in
  match fst (fst r) with
  | CommitSuggested =>
      exists messages mid,
        last_request messages = Some ExecuteSuggested
        /\ commits mid = commits m /\ snd r = snd (agent messages mid)
  | RevisionCommitted =>
      exists messages mid,
        last_request messages = Some ExecuteRevised
        /\ commits mid = commits m /\ snd r = snd (agent messages mid)
  | CustomCommitted =>
      exists messages mid l t rest,
        lines = l :: t :: rest
        /\ last_request messages = Some (ExecuteCustom (strip t))
        /\ commits mid = commits m /\ snd r = snd (agent messages mid)
  | _ => commits (snd r) = commits m
  end.
Proof.
  intros Hq r. pose proof (run_write_cases repo lines m) as H.
  cbv zeta in H. fold r in H.
  assert (commits (snd (agent [HumanMessage (Suggest repo)] m)) = commits m)
    as H0 by now apply quiet_first_invocation.
  destruct (fst (fst r)).
  - destruct H as (l & rest & _ & _ & _ & ->).
    eexists _, _. split; [apply last_request_snoc|]. split; [exact H0 | reflexivity].
  - destruct H as (l & rest & _ & _ & _ & ->). exact H0.
  - destruct H as (l & f & c & rest & _ & _ & _ & _ & H). cbv zeta in H.
    rewrite H. eexists _, _. split; [apply last_request_snoc|].
    split; [|reflexivity]. now rewrite quiet_invocation.
  - destruct H as (l & f & c & rest & _ & _ & _ & _ & ->).
    now rewrite quiet_invocation.
  - destruct H as (l & t & rest & -> & _ & _ & _ & ->).
    eexists _, _, l, t, rest. split; [reflexivity|].
    split; [apply last_request_snoc|]. split; [exact H0 | reflexivity].
  - destruct H as (l & t & rest & _ & _ & _ & _ & ->). exact H0.
  - destruct H as (l & rest & _ & _ & _ & ->). exact H0.
  - destruct H as [[_ ->] | (f & _ & ->)]; [exact H0|].
    now rewrite quiet_invocation.
Qed.

(** The commit instructions of a run, by the branch it took. *)
Lemma commit_requests_by_branch repo lines (m : state World) :
  let r := run_write agent repo (session lines) m in
  match fst (fst r) with
  | CommitSuggested => commit_requests (snd (fst r)) = [ExecuteSuggested]
  | RevisionCommitted => commit_requests (snd (fst r)) = [ExecuteRevised]
  | CustomCommitted => exists t, commit_requests (snd (fst r)) = [ExecuteCustom t]
  | _ => commit_requests (snd (fst r)) = []
  end.
Proof.
  intros r. pose proof (run_write_cases repo lines m) as H.
  cbv zeta in H. fold r in H. unfold commit_requests.
  destruct (fst (fst r)).
  - destruct H as (l & rest & _ & _ & -> & _). reflexivity.
  - destruct H as (l & rest & _ & _ & -> & _). reflexivity.
  - destruct H as (l & f & c & rest & _ & _ & _ & -> & _). reflexivity.
  - destruct H as (l & f & c & rest & _ & _ & _ & -> & _). reflexivity.
  - destruct H as (l & t & rest & _ & _ & _ & -> & _). eexists. reflexivity.
  - destruct H as (l & t & rest & _ & _ & _ & -> & _). reflexivity.
  - destruct H as (l & rest & _ & _ & -> & _). reflexivity.
  - destruct H as [[-> _] | (f & -> & _)]; reflexivity.
Qed.

(** An accepted run of an agent that follows its instructions adds exactly
    one [git commit] to those made before, in [path]; after a custom word
    its message is the trimmed text of the second line. *)
Lemma accepted_run_commits path repo lines (m : state World) :
  follows_instructions exec agent path ->
  let r := run_write agent repo (session lines) m in
  terminal_of (fst (fst r)) = Accepted ->
  exists message,
    message <> ""
    /\ commits (snd r) = (commits m ++ [commit_argv path message])%list
    /\ (fst (fst r) = CustomCommitted ->
        exists l t rest, lines = l :: t :: rest /\ message = strip t).
Proof.
  intros [Hq Hc] r Ht.
  pose proof (run_write_commits repo lines m Hq) as H.
  pose proof (run_write_cases repo lines m) as Hcases.
  cbv zeta in H, Hcases. fold r in H, Hcases.
  destruct (fst (fst r)); try discriminate Ht.
  - destruct H as (messages & mid & Hl & Hm & ->).
    destruct (Hc messages mid _ Hl) as (message & Hne & ->).
    rewrite commits_create_commit_tool, Hm.
    apply truthy_true in Hne. rewrite Hne.
    exists (strip message). split; [now apply truthy_true|].
    split; [reflexivity | discriminate].
  - destruct H as (messages & mid & Hl & Hm & ->).
    destruct (Hc messages mid _ Hl) as (message & Hne & ->).
    rewrite commits_create_commit_tool, Hm.
    apply truthy_true in Hne. rewrite Hne.
    exists (strip message). split; [now apply truthy_true|].
    split; [reflexivity | discriminate].
  - destruct H as (messages & mid & l & t & rest & -> & Hl & Hm & ->).
    destruct Hcases as (l' & t' & rest' & [= <- <- <-] & _ & Hne & _).
    rewrite (Hc messages mid _ Hl).
    rewrite commits_create_commit_tool, Hm, strip_idempotent.
    pose proof Hne as Hne'. apply truthy_true in Hne'. rewrite Hne'.
    exists (strip t). split; [exact Hne|]. split; [reflexivity|].
    intros _. now exists l, t, rest.
Qed.

Lemma run_write_accept repo l rest (m : state World) :
  mem (lower (strip l)) accept_words = true ->
  fst (fst (run_write agent repo (session (l :: rest)) m)) = CommitSuggested.
Proof.
  run_write_step. call_agent. intros ->. call_agent. reflexivity.
Qed.

Lemma run_write_cancel repo l rest (m : state World) :
  mem (lower (strip l)) accept_words = false ->
  mem (lower (strip l)) cancel_words = true ->
  fst (fst (run_write agent repo (session (l :: rest)) m)) = UserCancelled.
Proof. run_write_step. call_agent. intros -> ->. reflexivity. Qed.

Lemma mem_app_false x l1 l2 :
  mem x (l1 ++ l2)%list = false -> mem x l1 = false /\ mem x l2 = false.
Proof. rewrite mem_app. apply orb_false_iff. Qed.

Lemma run_write_unknown repo l rest (m : state World) :
  mem (lower (strip l))
      (accept_words ++ cancel_words ++ revise_words ++ custom_words)%list = false ->
  fst (fst (run_write agent repo (session (l :: rest)) m)) = UnknownOption.
Proof.
  intros H. apply mem_app_false in H as [Ha H].
  apply mem_app_false in H as [Hc H]. apply mem_app_false in H as [Hr Hu].
  run_write_step. call_agent. rewrite Ha, Hc, Hr, Hu. reflexivity.
Qed.

Lemma run_write_custom repo l t rest (m : state World) :
  mem (lower (strip l)) custom_words = true ->
  fst (fst (run_write agent repo (session (l :: t :: rest)) m))
  = if truthy (strip t) then CustomCommitted else CustomCancelled.
Proof.
  intros H. run_write_step. call_agent.
  destruct (mem (lower (strip l)) accept_words) eqn:Ea.
  { exfalso. apply mem_In in Ea. apply mem_In in H.
    simpl in Ea, H. intuition congruence. }
  destruct (mem (lower (strip l)) cancel_words) eqn:Ec.
  { exfalso. apply mem_In in Ec. apply mem_In in H.
    simpl in Ec, H. intuition congruence. }
  destruct (mem (lower (strip l)) revise_words) eqn:Er.
  { exfalso. apply mem_In in Er. apply mem_In in H.
    simpl in Er, H. intuition congruence. }
  rewrite H. cbn [stdin invocations fst snd].
  destruct (truthy (strip t)); [call_agent|]; reflexivity.
Qed.

(** C1, as the code has it: [run_write] never calls [create_commit_tool];
    it hands the agent instructions, and the agent holds the tool on every
    invocation.  For an agent that commits only when an invocation ends
    with an execute instruction: a run that ends cancelled, or is cut short
    by the end of input, hands over no such instruction and leaves the
    commits as they were; a run that hands one over, or that changes the
    commits, ended accepted, and its input was an accept word, a revise
    word followed by feedback and a confirming reply, or a custom word
    followed by text that is not blank.  No run hands over more than one
    execute instruction. *)
Theorem commit_only_after_approval
        (repo : string) (lines : list string) (m : state World) :
  commits_only_when_asked agent ->
  let r := run_write agent repo (session lines) m in
  let b := fst (fst r) in
  let st := snd (fst r) in
  (terminal_of b = Cancelled ->
   commit_requests st = [] /\ commits (snd r) = commits m)
  /\ (terminal_of b = Aborted ->
      commit_requests st = [] /\ commits (snd r) = commits m)
  /\ (commit_requests st <> [] \/ commits (snd r) <> commits m ->
      terminal_of b = Accepted
      /\ exists l rest,
          lines = l :: rest
          /\ (mem (lower (strip l)) accept_words = true
              \/ (mem (lower (strip l)) revise_words = true
                  /\ exists f c rest',
                      rest = f :: c :: rest'
                      /\ mem (lower (strip c)) confirm_words = true)
              \/ (mem (lower (strip l)) custom_words = true
                  /\ exists t rest', rest = t :: rest' /\ strip t <> "")))
  /\ (List.length (commit_requests st) <= 1)%nat.
Proof.
  intros Hq r b st.
  pose proof (commit_requests_by_branch repo lines m) as Hc.
  pose proof (run_write_cases repo lines m) as Hr.
  pose proof (run_write_commits repo lines m Hq) as Hm.
  cbv zeta in Hc, Hr, Hm. fold r in Hc, Hr, Hm. fold b in Hc, Hr, Hm.
  fold st in Hc, Hr.
  destruct b; cbn [terminal_of];
    (split; [first [discriminate | intros _; split; [exact Hc | exact Hm]]|]);
    (split; [first [discriminate | intros _; split; [exact Hc | exact Hm]]|]).
  - destruct Hr as (l & rest & -> & Ha & _). rewrite Hc. simpl.
    split; [|lia]. intros _. split; [reflexivity|]. exists l, rest. auto.
  - rewrite Hc. simpl. split; [|lia]. intros [H|H]; now destruct H.
  - destruct Hr as (l & f & c & rest & -> & Hv & Hy & _). rewrite Hc. simpl.
    split; [|lia]. intros _. split; [reflexivity|]. exists l, (f :: c :: rest).
    split; [reflexivity|]. right. left. split; [exact Hv|].
    exists f, c, rest. auto.
  - rewrite Hc. simpl. split; [|lia]. intros [H|H]; now destruct H.
  - destruct Hr as (l & t & rest & -> & Hu & Ht & _).
    destruct Hc as [t' ->]. simpl.
    split; [|lia]. intros _. split; [reflexivity|]. exists l, (t :: rest).
    split; [reflexivity|]. right. right. split; [exact Hu|].
    exists t, rest. auto.
  - rewrite Hc. simpl. split; [|lia]. intros [H|H]; now destruct H.
  - rewrite Hc. simpl. split; [|lia]. intros [H|H]; now destruct H.
  - rewrite Hc. simpl. split; [|lia]. intros [H|H]; now destruct H.
Qed.

(** C2, as the code has it: from the first prompt, each of the inputs "",
    "y", "yes", "accept" ends accepted; each of "n", "no", "cancel", "q",
    "quit", and any input that is no option word, ends cancelled with
    nothing handed to the agent after the first suggestion request.  The
    commit itself is the agent's: for an agent that follows its
    instructions, an accepted run adds exactly one [git commit] to those
    made before and a cancelled run adds none. *)
Theorem approval_routing
        (path repo first : string) (rest : list string) (m : state World) :
  follows_instructions exec agent path ->
  let r := run_write agent repo (session (first :: rest)) m in
  let b := fst (fst r) in
  let st := snd (fst r) in
  (In first accept_words ->
   b = CommitSuggested /\ terminal_of b = Accepted
   /\ commit_requests st = [ExecuteSuggested])
  /\ (In first cancel_words ->
      b = UserCancelled /\ terminal_of b = Cancelled
      /\ submitted st = [Suggest repo])
  /\ (mem (lower (strip first))
          (accept_words ++ cancel_words ++ revise_words ++ custom_words)%list
      = false ->
      b = UnknownOption /\ terminal_of b = Cancelled
      /\ submitted st = [Suggest repo])
  /\ (terminal_of b = Accepted ->
      List.length (commit_requests st) = 1%nat
      /\ exists message,
          message <> ""
          /\ commits (snd r) = (commits m ++ [commit_argv path message])%list)
  /\ (terminal_of b = Cancelled ->
      List.length (commit_requests st) = 0%nat
      /\ commits (snd r) = commits m).
Proof.
  intros Hf r b st.
  pose proof (commit_requests_by_branch repo (first :: rest) m) as Hc.
  pose proof (run_write_cases repo (first :: rest) m) as Hr.
  pose proof (run_write_commits repo (first :: rest) m (proj1 Hf)) as Hm.
  pose proof (accepted_run_commits path repo (first :: rest) m Hf) as Hacc.
  cbv zeta in Hc, Hr, Hm, Hacc.
  fold r in Hc, Hr, Hm, Hacc. fold b in Hc, Hr, Hm, Hacc. fold st in Hc, Hr.
  split; [|split; [|split; [|split]]].
  - intros Hin.
    assert (b = CommitSuggested) as E.
    { apply run_write_accept. simpl in Hin.
      destruct Hin as [<-|[<-|[<-|[<-|[]]]]]; reflexivity. }
    rewrite E in Hc |- *. auto.
  - intros Hin.
    assert (b = UserCancelled) as E.
    { simpl in Hin.
      destruct Hin as [<-|[<-|[<-|[<-|[<-|[]]]]]];
        apply run_write_cancel; reflexivity. }
    rewrite E in Hr |- *. destruct Hr as (l & t & _ & _ & Hs & _). auto.
  - intros Hun.
    assert (b = UnknownOption) as E by now apply run_write_unknown.
    rewrite E in Hr |- *. destruct Hr as (l & t & _ & _ & Hs & _). auto.
  - intros Ht. destruct (Hacc Ht) as (message & Hne & Hcm & _).
    split; [|now exists message].
    destruct b; cbn [terminal_of] in Ht; try discriminate Ht.
    + now rewrite Hc.
    + now rewrite Hc.
    + destruct Hc as [t ->]. reflexivity.
  - destruct b; cbn [terminal_of]; try discriminate; intros _;
      (split; [now rewrite Hc | exact Hm]).
Qed.

(** C3, as the code has it: after a custom word, text that is not blank
    ends accepted; the instruction handed to the agent carries that text
    with the white space around it removed, and no revision is asked
    before it: the only request that precedes it is the one for a
    suggestion, made before the choice was read.  For an agent that
    follows its instructions the one commit made is
    [git commit -m <trimmed text>].  Blank text (empty or all white space)
    ends cancelled and no commit is made. *)
Theorem custom_message_is_trimmed
        (path repo choice text : string) (rest : list string)
        (m : state World) :
  In (lower (strip choice)) custom_words ->
  follows_instructions exec agent path ->
  let r := run_write agent repo (session (choice :: text :: rest)) m in
  let b := fst (fst r) in
  let st := snd (fst r) in
  (strip text <> "" ->
   terminal_of b = Accepted
   /\ submitted st = [Suggest repo; ExecuteCustom (strip text)]
   /\ commits (snd r)
      = (commits m ++ [commit_argv path (strip text)])%list)
  /\ (strip text = "" ->
      terminal_of b = Cancelled
      /\ submitted st = [Suggest repo]
      /\ commits (snd r) = commits m).
Proof.
  intros Hin Hf r b st. apply mem_In in Hin.
  pose proof (run_write_custom repo choice text rest m Hin) as Hb.
  pose proof (run_write_cases repo (choice :: text :: rest) m) as Hr.
  pose proof (run_write_commits repo (choice :: text :: rest) m (proj1 Hf)) as Hm.
  pose proof (accepted_run_commits path repo (choice :: text :: rest) m Hf)
    as Hacc.
  cbv zeta in Hr, Hm, Hacc.
  fold r in Hb, Hr, Hm, Hacc. fold b in Hb, Hr, Hm, Hacc. fold st in Hr.
  split; intros Ht.
  - apply truthy_true in Ht. rewrite Ht in Hb.
    rewrite Hb in Hr, Hacc |- *. cbn [terminal_of] in *.
    destruct Hr as (l & t & tl & [= <- <- <-] & _ & _ & Hs & _).
    destruct (Hacc eq_refl) as (message & _ & Hcm & Hcustom).
    destruct (Hcustom eq_refl) as (l & t & tl & [= <- <- <-] & ->).
    repeat split; assumption.
  - apply truthy_false in Ht. rewrite Ht in Hb.
    rewrite Hb in Hr, Hm |- *. cbn [terminal_of].
    destruct Hr as (l & t & tl & [= <- <- <-] & _ & _ & Hs & _).
    repeat split; assumption.
Qed.
End WriteModeFacts.

(** ** Agents that follow their instructions, and agents that do not *)

Section AgentFacts.
Import PyStr Subprocess Tools Commands Cli WriteMode Agents.
Variable World : Type.
Variable exec : list string -> option Z -> World -> outcome * World.

(** With an agent that runs no tool the workflow is [Cli.run_write] and
    the machine stays as it was. *)
Lemma run_write_without_tools
      (answer : list message -> list message)
      (repo : string) (st : io) (m : state World) :
  WriteMode.run_write (fun messages m' => (answer messages, m')) repo st m
  = (Cli.run_write answer repo st, m).
Proof.
  unfold WriteMode.run_write, Cli.run_write, WriteMode.invoke_agent,
    Cli.invoke_agent, WriteMode.continue_conversation,
    Cli.continue_conversation, WriteMode.invoke, Cli.invoke, input.
  cbn [stdin invocations fst snd].
  destruct (stdin st) as [|l rest]; [reflexivity|].
  cbn [stdin invocations fst snd].
  destruct (mem (lower (strip l)) accept_words); [reflexivity|].
  destruct (mem (lower (strip l)) cancel_words); [reflexivity|].
  destruct (mem (lower (strip l)) revise_words).
  { destruct rest as [|f rest]; [reflexivity|].
    cbn [stdin invocations fst snd].
    destruct rest as [|c rest]; [reflexivity|].
    cbn [stdin invocations fst snd].
    destruct (mem (lower (strip c)) confirm_words); reflexivity. }
  destruct (mem (lower (strip l)) custom_words); [|reflexivity].
  destruct rest as [|t rest]; [reflexivity|].
  cbn [stdin invocations fst snd].
  destruct (truthy (strip t)); reflexivity.
Qed.

Lemma commits_after_tool (X : Type) (x : X)
      (call : Json.json * state World) :
  commits (snd (let (_, m') := call in (x, m'))) = commits (snd call).
Proof. now destruct call. Qed.

(** The agent that commits when told to follows its instructions, provided
    its suggestion is not blank. *)
Lemma obedient_agent_follows suggestion :
  strip suggestion <> "" ->
  follows_instructions exec (obedient_agent exec suggestion) ".".
Proof.
  intros Hne. split.
  - intros messages m Hq. unfold obedient_agent.
    destruct (last_request messages) as [r|]; [|reflexivity].
    specialize (Hq r eq_refl). destruct r; try discriminate Hq; reflexivity.
  - intros messages m r E. unfold obedient_agent. rewrite E.
    destruct r; try exact I.
    + exists suggestion. split; [exact Hne | apply commits_after_tool].
    + exists suggestion. split; [exact Hne | apply commits_after_tool].
    + apply commits_after_tool.
Qed.
End AgentFacts.

(** ** The write workflow on concrete runs *)

Section WriteModeWitnesses.
Import PyStr Subprocess Tools Commands Cli WriteMode Agents Samples.

Lemma suggested_not_blank : strip suggested <> "".
Proof. vm_compute. discriminate. Qed.

Lemma commit_only_after_approval_witness :
  commit_requests
    (snd (fst (run_write (obedient_agent (prints "") suggested) "/srv/app"
                         (session ["r"; "mention the parser"; "n"]) start)))
  = []
  /\ commits (snd (run_write (obedient_agent (prints "") suggested) "/srv/app"
                             (session ["r"; "mention the parser"; "n"]) start))
     = commits start.
Proof.
  pose proof (commit_only_after_approval
                unit (obedient_agent (prints "") suggested) "/srv/app"
                ["r"; "mention the parser"; "n"] start
                (proj1 (obedient_agent_follows unit (prints "") suggested
                          suggested_not_blank))) as H.
  cbv zeta in H. destruct H as (Hcancelled & _).
  apply Hcancelled. reflexivity.
Defined.

(** C1, as stated, fails: the agent holds [create_commit_tool] on every
    invocation, the request for a suggestion included, and an agent that
    uses it there has committed before the user answers "n". *)
Lemma commit_without_approval :
  terminal_of
    (fst (fst (run_write (hasty_agent (prints "")) "/srv/app"
                         (session ["n"]) start))) = Cancelled
  /\ commits (snd (run_write (hasty_agent (prints "")) "/srv/app"
                             (session ["n"]) start))
     = [commit_argv "." "wip"].
Proof. split; reflexivity. Qed.

Lemma approval_routing_witness :
  List.length
    (commit_requests
       (snd (fst (run_write (obedient_agent (prints "") suggested) "/srv/app"
                            (session ["y"]) start)))) = 1%nat
  /\ exists message,
      message <> ""
      /\ commits (snd (run_write (obedient_agent (prints "") suggested)
                                 "/srv/app" (session ["y"]) start))
         = (commits start ++ [commit_argv "." message])%list.
Proof.
  pose proof (approval_routing
                unit (prints "") (obedient_agent (prints "") suggested)
                "." "/srv/app" "y" [] start
                (obedient_agent_follows unit (prints "") suggested
                   suggested_not_blank)) as H.
  cbv zeta in H. destruct H as (_ & _ & _ & Haccepted & _).
  apply Haccepted. reflexivity.
Defined.

(** C2, as stated, fails: how often the commit is executed is up to the
    agent.  On "y" an agent that runs no tool leaves an accepted run with
    no commit and an agent that commits on every invocation leaves it with
    two; on "n" the latter leaves a cancelled run with one. *)
Lemma commit_count_is_the_agents :
  (terminal_of
     (fst (fst (run_write idle_agent "/srv/app" (session ["y"]) start)))
   = Accepted
   /\ commits (snd (run_write idle_agent "/srv/app" (session ["y"]) start))
      = [])
  /\ (terminal_of
        (fst (fst (run_write (hasty_agent (prints "")) "/srv/app"
                             (session ["y"]) start))) = Accepted
      /\ commits (snd (run_write (hasty_agent (prints "")) "/srv/app"
                                 (session ["y"]) start))
         = [commit_argv "." "wip"; commit_argv "." "wip"])
  /\ (terminal_of
        (fst (fst (run_write (hasty_agent (prints "")) "/srv/app"
                             (session ["n"]) start))) = Cancelled
      /\ commits (snd (run_write (hasty_agent (prints "")) "/srv/app"
                                 (session ["n"]) start))
         = [commit_argv "." "wip"]).
Proof. repeat split; reflexivity. Qed.

Lemma custom_message_is_trimmed_witness :
  commits (snd (run_write (obedient_agent (prints "") suggested) "/srv/app"
                          (session ["custom"; "docs: fix typo"]) start))
  = (commits start ++ [commit_argv "." "docs: fix typo"])%list.
Proof.
  assert (In (lower (strip "custom")) custom_words) as Hin.
  { simpl. right. left. reflexivity. }
  pose proof (custom_message_is_trimmed
                unit (prints "") (obedient_agent (prints "") suggested)
                "." "/srv/app" "custom" "docs: fix typo" [] start Hin
                (obedient_agent_follows unit (prints "") suggested
                   suggested_not_blank)) as H.
  cbv zeta in H. destruct H as (Hfull & _).
  apply Hfull. discriminate.
Defined.

(** C3, as stated, fails: a custom text of one space is not empty, yet the
    run ends cancelled with no commit; a custom text with white space
    around it is handed on, and committed, without that white space; and
    what reaches [create_commit_tool] is the agent's choice: one that
    rewords commits another message than the text. *)
Lemma custom_text_not_passed_verbatim :
  (" " <> ""
   /\ terminal_of
        (fst (fst (run_write (obedient_agent (prints "") suggested) "/srv/app"
                             (session ["c"; " "]) start))) = Cancelled
   /\ commits (snd (run_write (obedient_agent (prints "") suggested)
                              "/srv/app" (session ["c"; " "]) start)) = [])
  /\ (submitted
        (snd (fst (run_write (obedient_agent (prints "") suggested) "/srv/app"
                             (session ["custom"; "  docs: fix typo "]) start)))
      = [Suggest "/srv/app"; ExecuteCustom "docs: fix typo"]
      /\ commits (snd (run_write (obedient_agent (prints "") suggested)
                                 "/srv/app"
                                 (session ["custom"; "  docs: fix typo "])
                                 start))
         = [commit_argv "." "docs: fix typo"]
      /\ "docs: fix typo" <> "  docs: fix typo ")
  /\ (terminal_of
        (fst (fst (run_write (rewording_agent (prints "")) "/srv/app"
                             (session ["custom"; "docs: fix typo"]) start)))
      = Accepted
      /\ commits (snd (run_write (rewording_agent (prints "")) "/srv/app"
                                 (session ["custom"; "docs: fix typo"]) start))
         = [commit_argv "." "chore: docs: fix typo"]
      /\ "chore: docs: fix typo" <> "docs: fix typo").
Proof.
  repeat split; try reflexivity; discriminate.
Qed.
End WriteModeWitnesses.

(** ** Witnesses for the git tools *)

Section ToolWitnesses.
Import PyStr Json Subprocess GitLog Tools Samples.

Lemma get_commits_tool_clamps_limit_witness :
  (List.length
     (commits_of
        (fst (get_commits_tool (prints (log_stdout long_history 500))
                               "." 1000 start))) <= 500)%nat.
Proof.
  pose proof (get_commits_tool_clamps_limit
                unit (prints (log_stdout long_history 500)) "." 1000 start) as H.
  cbv zeta in H.
  destruct H as (_ & _ & _ & _ & _ & H & _).
  destruct (H long_history "" tt) as (_ & _ & H500).
  - vm_compute. reflexivity.
  - reflexivity.
  - exact H500.
Defined.

Lemma clone_repo_tool_rejects_foreign_scheme_witness :
  exists text,
    clone_repo_tool (prints "") tmp " ssh://host/repo.git " start
    = (clone_failure text, start)
    /\ get "success" (clone_failure text) = Some (JBool false)
    /\ get "repo_path" (clone_failure text) = Some JNull
    /\ (text = "Empty URL provided"
        \/ text = "Invalid URL protocol. Use https://, http://, git://, or git@ URLs").
Proof.
  apply (proj1 (clone_repo_tool_rejects_foreign_scheme unit (prints "") tmp start)).
  left. reflexivity.
Defined.

Lemma get_staged_diff_tool_nothing_staged_witness :
  has_key "diff" (fst (get_staged_diff_tool (prints "") "." start)) = false
  /\ get "has_staged" (fst (get_staged_diff_tool (prints "") "." start))
     = Some (JBool false).
Proof.
  destruct (get_staged_diff_tool_nothing_staged
              unit (prints "") "." start "" "" "" "" "" "" tt tt tt
              eq_refl eq_refl eq_refl eq_refl) as (_ & Hs & _ & Hd & _).
  split; [exact Hd | exact Hs].
Defined.

Lemma create_commit_tool_strips_message_witness :
  spawned (snd (create_commit_tool (prints "") "  fix: trim input " "." start))
  = [commit_argv "." "fix: trim input"].
Proof.
  apply (proj1 (proj2 (create_commit_tool_strips_message
                         unit (prints "") "  fix: trim input " "." start))).
  discriminate.
Defined.
End ToolWitnesses.

(** ** The score categories *)

Section CategoryFacts.
Import Models.


End CategoryFacts.

(** ** The thread store *)

Section ThreadFacts.
Import Agent.

(** With the database in place, clearing everything leaves no thread and
    returns the number of checkpoint rows deleted. *)
Lemma clear_all_threads_sqlite st rows :
  SQLITE_AVAILABLE st = true -> CHECKPOINT_DB st = Table rows ->
  fst (clear_all_threads st) = Z.of_nat (List.length rows)
  /\ list_threads (snd (clear_all_threads st)) = [].
Proof.
  intros Ha Hdb. unfold clear_all_threads, list_threads.
  rewrite Ha, Hdb. simpl. rewrite Ha. split; reflexivity.
Qed.

(** Without the sqlite saver: listing gives one placeholder line, clearing
    one thread does nothing, and clearing everything drops the in-memory
    saver and reports 1. *)
Lemma threads_in_memory st :
  SQLITE_AVAILABLE st = false ->
  list_threads st = [not_listable]
  /\ (forall tid, clear_thread tid st = (false, st))
  /\ fst (clear_all_threads st) = 1%Z
  /\ _memory_saver (snd (clear_all_threads st)) = None
  /\ snd (fst (get_checkpointer st)) = "memory".
Proof.
  intros Ha. unfold list_threads, clear_thread, clear_all_threads, get_checkpointer.
  rewrite Ha. simpl. repeat split.
  destruct (_memory_saver st); reflexivity.
Qed.

(** C8, at the failing input: a database with two checkpoints of one
    thread lists one thread, and clearing everything returns 2. *)
Theorem clear_all_threads_counts_rows :
  list_threads Samples.one_thread_two_checkpoints = ["thread_3f9a1c2b7d4e"]
  /\ fst (clear_all_threads Samples.one_thread_two_checkpoints) = 2%Z
  /\ list_threads (snd (clear_all_threads Samples.one_thread_two_checkpoints))
     = [].
Proof. repeat split. Qed.
End ThreadFacts.


(** ** Worked examples *)

Section Examples.
Import PyStr Json Subprocess GitLog Tools Cli Samples.

Example strip_trims_both_ends : strip "  a b  " = "a b".
Proof. reflexivity. Qed.

Example strip_takes_unit_separator : strip ("x" ++ chr US) = "x".
Proof. reflexivity. Qed.

Example lower_folds_case : lower "YeS" = "yes".
Proof. reflexivity. Qed.

Example split_of_empty : split LF "" = [""].
Proof. reflexivity. Qed.

Example split_keeps_empty_pieces : split "," "a,,b," = ["a"; ""; "b"; ""].
Proof. reflexivity. Qed.

Example parse_log_reads_one_entry :
  parse_log (log_stdout [a_commit] 1)
  = [JDict [("hash", JStr "3f2a9c0d");
            ("message", JStr "fix(auth): refresh token before expiry");
            ("body", JStr "The token was refreshed after it expired.")]].
Proof. reflexivity. Qed.

Example get_commits_tool_negative_limit :
  spawned (snd (get_commits_tool (prints "") "." (-3) start))
  = [["git"; "-C"; "."; "log"; "-n1"; "--format=%H%x1f%s%x1f%b%x00"]].
Proof. reflexivity. Qed.

Example clone_repo_tool_trims_then_clones :
  spawned (snd (clone_repo_tool (prints "") tmp " https://github.com/a/b " start))
  = [["git"; "clone"; "--depth=50"; "https://github.com/a/b";
      "/tmp/commit_critic_k3x9"]].
Proof. reflexivity. Qed.

Example get_staged_diff_tool_two_files :
  get "file_count"
      (fst (get_staged_diff_tool (prints ("a.py" ++ chr LF ++ "b.py" ++ chr LF))
                                 "." start))
  = Some (JInt 2).
Proof. reflexivity. Qed.

Example run_write_revise_then_yes :
  fst (run_write replying_agent "/srv/app" (session ["R"; " shorter "; "Y"]))
  = RevisionCommitted
  /\ submitted (snd (run_write replying_agent "/srv/app"
                               (session ["R"; " shorter "; "Y"])))
     = [Suggest "/srv/app"; Revise "shorter"; ExecuteRevised].
Proof. split; reflexivity. Qed.

Example run_write_revise_then_accept_word :
  fst (run_write replying_agent "/srv/app" (session ["r"; "shorter"; "accept"]))
  = RevisionCancelled.
Proof. reflexivity. Qed.

Example run_write_end_of_input :
  fst (run_write replying_agent "/srv/app" (session [])) = EndOfInput.
Proof. reflexivity. Qed.
End Examples.

(** ** More on strings *)

Section MoreStringFacts.
Import PyStr GitLog.

Lemma lstrip_app_blank p t : lstrip p = "" -> lstrip (p ++ t) = lstrip t.
Proof.
  induction p as [|c p IH]; simpl; [reflexivity|].
  destruct (isspace c); [exact IH | discriminate].
Qed.

Lemma app_not_empty a b : b <> "" -> a ++ b <> "".
Proof. destruct a; simpl; [tauto | discriminate]. Qed.

(** Trailing white space is taken from the last part that has anything
    else in it. *)
Lemma rstrip_app a b :
  rstrip (a ++ b) = if truthy (rstrip b) then a ++ rstrip b else rstrip a.
Proof.
  induction a as [|c a IH]; simpl.
  - destruct (truthy (rstrip b)) eqn:E; [reflexivity|].
    now apply truthy_false in E.
  - rewrite IH. destruct (truthy (rstrip b)) eqn:E; [|reflexivity].
    apply truthy_true in E.
    pose proof (app_not_empty a (rstrip b) E) as Hne.
    destruct (a ++ rstrip b); [contradiction | reflexivity].
Qed.

Lemma lstrip_rstrip_comm s : lstrip (rstrip s) = rstrip (lstrip s).
Proof.
  induction s as [|c s IH]; [reflexivity|]. simpl.
  destruct (isspace c) eqn:Ec.
  - destruct (rstrip s) as [|y r] eqn:E.
    + simpl. rewrite <- IH. reflexivity.
    + rewrite <- IH. simpl. now rewrite Ec.
  - destruct (rstrip s) as [|y r] eqn:E; simpl; now rewrite Ec, ?E.
Qed.

Lemma strip_rstrip s : strip (rstrip s) = strip s.
Proof.
  unfold strip. now rewrite lstrip_rstrip_comm, rstrip_idempotent.
Qed.

Lemma lstrip_blank_rstrip s : lstrip s = "" -> rstrip s = "".
Proof.
  induction s as [|c s IH]; simpl; [reflexivity|].
  destruct (isspace c); [|discriminate].
  intros H. now rewrite (IH H).
Qed.

Lemma strip_blank_rstrip s : strip s = "" -> rstrip s = "".
Proof.
  unfold strip. rewrite <- lstrip_rstrip_comm. intros H.
  apply lstrip_blank_rstrip in H. now rewrite rstrip_idempotent in H.
Qed.

Lemma rstrip_blank_strip s : rstrip s = "" -> strip s = "".
Proof.
  unfold strip. rewrite <- lstrip_rstrip_comm. now intros ->.
Qed.

Lemma lstrip_blank_strip s : lstrip s = "" -> strip s = "".
Proof. unfold strip. now intros ->. Qed.

Lemma isspace_US : isspace US = true.
Proof. reflexivity. Qed.

Lemma any_space_absent_US s : any_space s = false -> absent US s = true.
Proof.
  induction s as [|c s IH]; simpl; [reflexivity|].
  intros H. apply orb_false_iff in H as [Hc Hs]. rewrite (IH Hs), andb_true_r.
  apply negb_true_iff, Ascii.eqb_neq. intros ->. now rewrite isspace_US in Hc.
Qed.

Lemma absent_rstrip c s : absent c s = true -> absent c (rstrip s) = true.
Proof.
  induction s as [|x s IH]; simpl; [reflexivity|].
  intros H. apply andb_true_iff in H as [Hx Hs]. specialize (IH Hs).
  destruct (rstrip s) as [|y r].
  - destruct (isspace x); simpl; [reflexivity | now rewrite Hx].
  - change (absent c (String x (String y r))) with
      (negb (Ascii.eqb x c) && absent c (String y r)).
    now rewrite Hx, IH.
Qed.

Lemma rstrip_fixed s : any_space s = false -> rstrip s = s.
Proof.
  induction s as [|c s IH]; simpl; [reflexivity|].
  intros H. apply orb_false_iff in H as [Hc Hs]. rewrite (IH Hs), Hc.
  now destruct s.
Qed.

Lemma length_slice_to n : forall s, (String.length (slice_to n s) <= n)%nat.
Proof.
  unfold slice_to. induction n as [|n IH]; intros [|c s]; simpl; try lia.
  specialize (IH s). lia.
Qed.

Lemma slice_to_prefix n : forall s, String.prefix (slice_to n s) s = true.
Proof.
  unfold slice_to. induction n as [|n IH]; intros [|c s]; simpl;
    try reflexivity.
  destruct (ascii_dec c c); [apply IH | contradiction].
Qed.

Lemma slice_to_short n : forall s,
  (String.length s <= n)%nat -> slice_to n s = s.
Proof.
  unfold slice_to. induction n as [|n IH]; intros [|c s]; simpl;
    try reflexivity; try lia.
  intros H. rewrite IH by lia. reflexivity.
Qed.

End MoreStringFacts.

(** ** Reading a well-formed log *)

Section LogReadingFacts.
Import PyStr Json GitLog Tools LogReading.

Lemma truthy_strip_rstrip s : truthy (strip s) = truthy (rstrip s).
Proof.
  destruct (truthy (rstrip s)) eqn:E.
  - apply truthy_true. apply truthy_true in E. intros H.
    now apply strip_blank_rstrip in H.
  - apply truthy_false. apply truthy_false in E. now apply rstrip_blank_strip.
Qed.

Lemma truthy_app a b : truthy a = true -> truthy (a ++ b) = true.
Proof. destruct a; [discriminate | reflexivity]. Qed.

Lemma plain_parts c :
  plain c = true ->
  truthy (sha c) = true /\ any_space (sha c) = false
  /\ absent US (subject c) = true /\ absent US (body c) = true.
Proof.
  unfold plain. rewrite !andb_true_iff, negb_true_iff. tauto.
Qed.

Lemma plain_well_formed c : plain c = true -> well_formed c = true.
Proof.
  unfold plain, well_formed. rewrite !andb_true_iff. tauto.
Qed.

(** The entry of a plain commit, trimmed: the hash, then what is left of
    subject and body once trailing white space is gone. *)
Lemma strip_entry p c :
  lstrip p = "" -> plain c = true ->
  strip (p ++ sha c ++ chr US ++ subject c ++ chr US ++ body c)
  = if truthy (rstrip (body c))
    then sha c ++ String US (subject c ++ String US (rstrip (body c)))
    else if truthy (rstrip (subject c))
         then sha c ++ String US (rstrip (subject c))
         else sha c.
Proof.
  intros Hp Hc. destruct (plain_parts c Hc) as (Hsha & Hsp & _ & _).
  unfold strip. rewrite (lstrip_app_blank p _ Hp).
  rewrite lstrip_fixed.
  2:{ intros x. destruct (sha c) as [|y r] eqn:E; [discriminate|].
      simpl. intros [= <-]. simpl in Hsp. now apply orb_false_iff in Hsp. }
  unfold chr. simpl.
  rewrite rstrip_app. simpl.
  rewrite rstrip_app. simpl.
  destruct (rstrip (body c)) as [|y r] eqn:Eb.
  - simpl. destruct (rstrip (subject c)) as [|z q] eqn:Es; simpl.
    + now apply rstrip_fixed.
    + reflexivity.
  - simpl.
    destruct (subject c ++ String US (String y r)) eqn:E1.
    { destruct (subject c); discriminate. }
    reflexivity.
Qed.

(** What one entry of a plain commit parses to. *)
Lemma parse_entry_plain p c :
  lstrip p = "" -> plain c = true ->
  parse_entry (p ++ sha c ++ chr US ++ subject c ++ chr US ++ body c)
  = if visible c then [commit_json c] else [].
Proof.
  intros Hp Hc. destruct (plain_parts c Hc) as (Hsha & Hsp & Hsub & Hbody).
  pose proof (any_space_absent_US _ Hsp) as Hus.
  unfold parse_entry, visible, commit_json.
  rewrite (strip_entry p c Hp Hc), !truthy_strip_rstrip.
  destruct (truthy (rstrip (body c))) eqn:Eb.
  - rewrite orb_true_r, (truthy_app _ _ Hsha). cbn [negb].
    rewrite (split_app_sep US _ _ Hus), (split_app_sep US _ _ Hsub).
    rewrite (split_absent US _ (absent_rstrip US _ Hbody)).
    cbn [List.length Nat.leb Nat.ltb nth]. now rewrite strip_rstrip.
  - rewrite orb_false_r. apply truthy_false in Eb.
    destruct (truthy (rstrip (subject c))) eqn:Es.
    + rewrite (truthy_app _ _ Hsha). cbn [negb].
      rewrite (split_app_sep US _ _ Hus).
      rewrite (split_absent US _ (absent_rstrip US _ Hsub)).
      cbn [List.length Nat.leb Nat.ltb nth].
      now rewrite strip_rstrip, (rstrip_blank_strip _ Eb).
    + rewrite Hsha. cbn [negb]. rewrite (split_absent US _ Hus). reflexivity.
Qed.

(** After a blank lead, the log of plain commits parses to the visible
    ones, in order. *)
Lemma parse_log_plain cs : forall p,
  absent NUL p = true -> lstrip p = "" ->
  forallb plain cs = true ->
  parse_log (p ++ join (map entry_text cs)) = map commit_json (filter visible cs).
Proof.
  induction cs as [|c cs IH]; intros p Hnul Hp Hcs; simpl.
  - rewrite string_app_nil_r. unfold parse_log.
    rewrite (split_absent NUL p Hnul). simpl.
    rewrite (parse_entry_blank p (lstrip_blank_strip p Hp)). reflexivity.
  - simpl in Hcs. apply andb_true_iff in Hcs as [Hc Hcs].
    rewrite <- string_app_assoc, entry_text_shape.
    set (lead := p ++ sha c ++ chr US ++ subject c ++ chr US ++ body c).
    rewrite (string_app_assoc lead).
    change (String NUL (chr LF) ++ join (map entry_text cs))
      with (String NUL (chr LF ++ join (map entry_text cs))).
    rewrite parse_log_cons
      by (apply absent_entry; [exact Hnul | now apply plain_well_formed]).
    unfold lead. rewrite (parse_entry_plain p c Hp Hc).
    rewrite (IH (chr LF) eq_refl eq_refl Hcs).
    destruct (visible c); reflexivity.
Qed.

(** X1: when git answers [log -n<k>] on a history of plain commits, the
    tool returns, most recent first, one object per commit among the first
    [k] whose subject or body is not blank: the first eight characters of
    its hash, its subject and its body with the white space around them
    removed.  A commit whose subject and body are both blank is left out. *)
Theorem get_commits_tool_reads_history
        (World : Type)
        (exec : list string -> option Z -> World -> Subprocess.outcome * World)
        (repo_path : string) (limit : Z) (st : Subprocess.state World)
        (history : list commit_object) (err : string) (w : World) :
  forallb plain history = true ->
  exec (log_argv repo_path (clamp_limit limit)) None (Subprocess.world st)
  = (Subprocess.Completed 0 (log_stdout history (clamp_limit limit)) err, w) ->
  fst (get_commits_tool exec repo_path limit st)
  = JList (map commit_json
               (filter visible
                       (firstn (Z.to_nat (clamp_limit limit)) history))).
Proof.
  intros Hplain Hexec. unfold get_commits_tool.
  rewrite (run_completed World exec _ None st _ _ _ Hexec). cbn [fst].
  unfold log_stdout. cbn [Subprocess.stdout]. f_equal.
  apply (parse_log_plain _ "" eq_refl eq_refl).
  now apply forallb_firstn.
Qed.
End LogReadingFacts.

(** ** More on the git tools *)

Section MoreToolFacts.
Import PyStr Json Subprocess GitLog Tools LogReading.
Variable World : Type.
Variable exec : list string -> option Z -> World -> outcome * World.
Variable mkdtemp : string -> World -> (string + string) * World.

Lemma parse_entry_shape e : Forall well_shaped (parse_entry e).
Proof.
  unfold parse_entry.
  destruct (negb (truthy (strip e))); [constructor|].
  destruct (2 <=? List.length (split US (strip e)))%nat; [|constructor].
  constructor; [|constructor].
  eexists _, _, _. split; [reflexivity|].
  split; [apply length_slice_to|]. split; [apply strip_idempotent|].
  destruct (2 <? List.length (split US (strip e)))%nat;
    [apply strip_idempotent | reflexivity].
Qed.

Lemma parse_log_shape out : Forall well_shaped (parse_log out).
Proof.
  unfold parse_log. induction (split NUL out) as [|e es IH]; simpl.
  - constructor.
  - apply Forall_app. split; [apply parse_entry_shape | exact IH].
Qed.

(** X2: whatever git prints or does, every commit the tool returns has the
    keys hash, message and body in that order, a hash of at most eight
    characters, and a message and a body with no white space around
    them. *)
Theorem get_commits_tool_commit_shape
        (repo_path : string) (limit : Z) (st : state World) :
  Forall well_shaped (commits_of (fst (get_commits_tool exec repo_path limit st))).
Proof.
  unfold get_commits_tool.
  destruct (run exec _ true None st) as [[[rc err|t|t]|res] st'];
    cbn [fst commits_of assoc String.eqb]; try constructor.
  apply parse_log_shape.
Qed.

Lemma split_pieces_absent sep s :
  Forall (fun p => absent sep p = true) (split sep s).
Proof.
  induction s as [|c s IH]; simpl.
  - constructor; [reflexivity | constructor].
  - destruct (Ascii.eqb c sep) eqn:E.
    + constructor; [reflexivity | exact IH].
    + destruct (split sep s) as [|p ps]; [repeat constructor; simpl; now rewrite E|].
      inversion IH as [|? ? Hp Hps]; subst.
      constructor; [simpl; now rewrite E, Hp | exact Hps].
Qed.

Lemma staged_files_names out :
  Forall (fun f => f <> "" /\ absent LF f = true) (staged_files out).
Proof.
  unfold staged_files.
  pose proof (split_pieces_absent LF (strip out)) as H.
  induction H as [|p ps Hp Hps IH]; simpl; [constructor|].
  destruct (truthy p) eqn:E; [|exact IH].
  constructor; [|exact IH]. split; [now apply truthy_true | exact Hp].
Qed.

Lemma staged_failure_flag e :
  get "has_staged" (staged_failure e) = Some (JBool false)
  /\ has_key "error" (staged_failure e) = true.
Proof. destruct e; split; reflexivity. Qed.

(** X3: whenever the tool reports staged changes, in any environment, its
    result has exactly the fields has_staged, stat, diff, files and
    file_count; files is not empty and holds no empty name and no name with
    a line break; file_count is the number of files; diff has at most 5000
    characters; and the three diff commands were spawned, in order. *)
Theorem get_staged_diff_tool_reports_files
        (repo_path : string) (st : state World) :
  let r := get_staged_diff_tool exec repo_path st in
  get "has_staged" (fst r) = Some (JBool true) ->
  exists stat diff files,
    fst r = JDict [("has_staged", JBool true);
                   ("stat", JStr stat);
                   ("diff", JStr diff);
                   ("files", JList (map JStr files));
                   ("file_count", JInt (Z.of_nat (List.length files)))]
    /\ files <> []
    /\ Forall (fun f => f <> "" /\ absent LF f = true) files
    /\ (String.length diff <= 5000)%nat
    /\ spawned (snd r)
       = (spawned st ++ [staged_stat_argv repo_path;
                         staged_diff_argv repo_path;
                         staged_names_argv repo_path])%list.
Proof.
  intros r. unfold r, get_staged_diff_tool.
  pose proof (run_spawned World exec (staged_stat_argv repo_path) true None st) as S1.
  destruct (run exec (staged_stat_argv repo_path) true None st)
    as [[e1|stat_result] st1]; cbn [fst snd] in *.
  { intros H. destruct (staged_failure_flag e1) as [F _]. congruence. }
  pose proof (run_spawned World exec (staged_diff_argv repo_path) true None st1) as S2.
  destruct (run exec (staged_diff_argv repo_path) true None st1)
    as [[e2|diff_result] st2]; cbn [fst snd] in *.
  { intros H. destruct (staged_failure_flag e2) as [F _]. congruence. }
  pose proof (run_spawned World exec (staged_names_argv repo_path) true None st2) as S3.
  destruct (run exec (staged_names_argv repo_path) true None st2)
    as [[e3|files_result] st3]; cbn [fst snd] in *.
  { intros H. destruct (staged_failure_flag e3) as [F _]. congruence. }
  pose proof (staged_files_names (stdout files_result)) as Hnames.
  destruct (staged_files (stdout files_result)) as [|f fs] eqn:Ef;
    cbn [fst snd]; [discriminate|].
  intros _. exists (stdout stat_result), (slice_to 5000 (stdout diff_result)), (f :: fs).
  split; [reflexivity|]. split; [discriminate|]. split; [exact Hnames|].
  split; [apply length_slice_to|].
  rewrite S3, S2, S1, <- !app_assoc. reflexivity.
Qed.

(** [subprocess.run(..., check=True)]: the command is spawned, the world
    is the one it leaves, and a result is returned exactly when it
    succeeded. *)
Lemma run_checked argv timeout (st : state World) :
  let o := exec argv timeout (world st) in
  snd (run exec argv true timeout st)
  = {| world := snd o; spawned := (spawned st ++ [argv])%list |}
  /\ (if succeeded (fst o)
      then exists result, fst (run exec argv true timeout st) = inr result
      else exists e, fst (run exec argv true timeout st) = inl e).
Proof.
  cbv zeta. unfold run.
  destruct (exec argv timeout (world st)) as [[rc out err|t|t] w];
    cbn [fst snd succeeded andb].
  - destruct (rc =? 0)%Z; cbn [negb fst snd];
      (split; [reflexivity | eexists; reflexivity]).
  - split; [reflexivity | eexists; reflexivity].
  - split; [reflexivity | eexists; reflexivity].
Qed.

(** X4: the tool spawns nothing but the three [git diff --staged]
    commands, in order, each in the world the one before left, and stops
    at the first that fails: the second is spawned only if the first
    exited with status 0, the third only if the second did too.  The
    result carries an error exactly when one of the commands spawned
    failed, and never together with has_staged true. *)
Theorem get_staged_diff_tool_only_reads
        (repo_path : string) (st : state World) :
  let o1 := exec (staged_stat_argv repo_path) None (world st) in
  let o2 := exec (staged_diff_argv repo_path) None (snd o1) in
  let o3 := exec (staged_names_argv repo_path) None (snd o2) in
  let r := get_staged_diff_tool exec repo_path st in
  spawned (snd r)
  = (spawned st
       ++ staged_stat_argv repo_path
       :: (if succeeded (fst o1)
           then staged_diff_argv repo_path
                :: (if succeeded (fst o2)
                    then [staged_names_argv repo_path] else [])
           else []))%list
  /\ world (snd r)
     = (if succeeded (fst o1)
        then if succeeded (fst o2) then snd o3 else snd o2
        else snd o1)
  /\ has_key "error" (fst r)
     = negb (succeeded (fst o1) && succeeded (fst o2) && succeeded (fst o3))
  /\ (has_key "error" (fst r) = true ->
      get "has_staged" (fst r) = Some (JBool false)).
Proof.
  intros o1 o2 o3 r. unfold r, get_staged_diff_tool.
  destruct (run_checked (staged_stat_argv repo_path) None st) as [S1 R1].
  fold o1 in S1, R1.
  destruct (run exec (staged_stat_argv repo_path) true None st)
    as [a1 st1]; cbn [fst snd] in *. subst st1.
  destruct (succeeded (fst o1)); cbn [andb negb].
  2:{ destruct R1 as [e ->]. destruct (staged_failure_flag e) as [F E].
      cbn [fst snd world spawned]. auto. }
  destruct R1 as [stat_result ->].
  destruct (run_checked (staged_diff_argv repo_path) None
              {| world := snd o1;
                 spawned := (spawned st ++ [staged_stat_argv repo_path])%list |})
    as [S2 R2].
  cbn [world spawned] in S2, R2. fold o2 in S2, R2.
  destruct (run exec (staged_diff_argv repo_path) true None _)
    as [a2 st2]; cbn [fst snd] in *. subst st2.
  destruct (succeeded (fst o2)); cbn [andb negb].
  2:{ destruct R2 as [e ->]. destruct (staged_failure_flag e) as [F E].
      cbn [fst snd world spawned]. rewrite <- app_assoc. auto. }
  destruct R2 as [diff_result ->].
  destruct (run_checked (staged_names_argv repo_path) None
              {| world := snd o2;
                 spawned := ((spawned st ++ [staged_stat_argv repo_path])
                               ++ [staged_diff_argv repo_path])%list |})
    as [S3 R3].
  cbn [world spawned] in S3, R3. fold o3 in S3, R3.
  destruct (run exec (staged_names_argv repo_path) true None _)
    as [a3 st3]; cbn [fst snd] in *. subst st3.
  destruct (succeeded (fst o3)); cbn [andb negb].
  2:{ destruct R3 as [e ->]. destruct (staged_failure_flag e) as [F E].
      cbn [fst snd world spawned]. rewrite <- !app_assoc. auto. }
  destruct R3 as [files_result ->].
  destruct (staged_files (stdout files_result)); cbn [fst snd world spawned];
    rewrite <- !app_assoc;
    (split; [reflexivity|]); (split; [reflexivity|]);
    (split; [reflexivity | discriminate]).
Qed.
End MoreToolFacts.

(** ** Cloning, committing and repository information *)

Section CloneCommitFacts.
Import PyStr Json Subprocess Tools.
Variable World : Type.
Variable exec : list string -> option Z -> World -> outcome * World.
Variable mkdtemp : string -> World -> (string + string) * World.

Lemma has_allowed_protocol_truthy url :
  has_allowed_protocol url = true -> truthy url = true.
Proof. destruct url; [discriminate | reflexivity]. Qed.

(** X5: for a URL that, once trimmed, begins with an allowed prefix: if no
    temporary directory can be made the tool fails without spawning
    anything; otherwise it spawns exactly one command,
    [git clone --depth=50 <trimmed url> <directory>], reports success
    exactly when that command exits with status 0, returns the directory as
    repo_path on success and null on failure, and reports a time-out with a
    message of its own. *)
Theorem clone_repo_tool_clones_trimmed_url (url : string) (st : state World) :
  has_allowed_protocol (strip url) = true ->
  let r := clone_repo_tool exec mkdtemp url st in
  (forall text w1,
      mkdtemp "commit_critic_" (world st) = (inr text, w1) ->
      fst r = clone_failure ("Unexpected error: " ++ text)
      /\ spawned (snd r) = spawned st)
  /\ (forall dir w1,
         mkdtemp "commit_critic_" (world st) = (inl dir, w1) ->
         spawned (snd r) = (spawned st ++ [clone_argv (strip url) dir])%list
         /\ (get "success" (fst r) = Some (JBool true) <->
             exists out err w2,
               exec (clone_argv (strip url) dir) (Some 60%Z) w1
               = (Completed 0 out err, w2))
         /\ (get "success" (fst r) = Some (JBool true) ->
             get "repo_path" (fst r) = Some (JStr dir))
         /\ (get "success" (fst r) <> Some (JBool true) ->
             get "success" (fst r) = Some (JBool false)
             /\ get "repo_path" (fst r) = Some JNull
             /\ has_key "error" (fst r) = true)
         /\ (forall text w2,
                exec (clone_argv (strip url) dir) (Some 60%Z) w1
                = (TimedOut text, w2) ->
                get "error" (fst r)
                = Some (JStr "Clone timed out after 60 seconds. Repository may be too large or network is slow."))).
Proof.
  intros Hok r. unfold r, clone_repo_tool.
  rewrite (has_allowed_protocol_truthy _ Hok), Hok. cbn [negb].
  unfold make_temp_dir, run. split.
  - intros text w1 ->. split; reflexivity.
  - intros dir w1 ->. cbn [world spawned].
    destruct (exec (clone_argv (strip url) dir) (Some 60%Z) w1)
      as [[rc out err|t|t] w2] eqn:E;
      [destruct (rc =? 0)%Z eqn:Erc;
       [apply Z.eqb_eq in Erc; subst rc | apply Z.eqb_neq in Erc]|..];
      cbn [andb negb fst snd spawned];
      (split; [reflexivity|]);
      (split; [split; [intros H; try discriminate H; eauto
                      | intros (out' & err' & w2' & H); try discriminate H;
                        try reflexivity; injection H as -> _ _ _;
                        now contradiction Erc]|]);
      (split; [intros H; try discriminate H; reflexivity|]);
      (split; [intros H; try (now contradiction H); repeat split|]);
      intros text w2' H; try discriminate H; reflexivity.
Qed.

(** X6: [create_commit_tool] reports success exactly when the message is
    not blank and [git commit -m <trimmed message>] exits with status 0;
    every result has a success field, and an error field exactly when
    success is false. *)
Theorem create_commit_tool_success_iff
        (message repo_path : string) (st : state World) :
  let r := fst (create_commit_tool exec message repo_path st) in
  (get "success" r = Some (JBool true) <->
   strip message <> ""
   /\ exists out err w,
       exec (commit_argv repo_path (strip message)) None (world st)
       = (Completed 0 out err, w))
  /\ (get "success" r = Some (JBool true) \/ get "success" r = Some (JBool false))
  /\ (has_key "error" r = true <-> get "success" r = Some (JBool false)).
Proof.
  intros r. unfold r, create_commit_tool. rewrite strip_or_empty.
  destruct (truthy (strip message)) eqn:Em; cbn [negb].
  - apply truthy_true in Em. unfold run.
    destruct (exec (commit_argv repo_path (strip message)) None (world st))
      as [[rc out err|t|t] w] eqn:E;
      [destruct (rc =? 0)%Z eqn:Erc;
       [apply Z.eqb_eq in Erc; subst rc | apply Z.eqb_neq in Erc]|..];
      cbn [andb negb fst];
      (split; [split; [intros H; try discriminate H; eauto
                      | intros (_ & out' & err' & w' & H); try discriminate H;
                        try reflexivity; injection H as -> _ _ _;
                        now contradiction Erc]|]);
      (split; [auto|]);
      (split; intros H; try discriminate H; reflexivity).
  - apply truthy_false in Em. cbn [fst].
    split; [split; [discriminate | intros (H & _); contradiction]|].
    split; [auto|]. split; reflexivity.
Qed.
End CloneCommitFacts.

Section RepoInfoFacts.
Import PyStr Json Subprocess RepoInfo.
Variable World : Type.
Variable exec : list string -> option Z -> World -> outcome * World.
Variable abspath : string -> string.


Lemma staged_check_and_result_spawned repo_path branch remote (st : state World) :
  spawned (snd (staged_check_and_result World exec abspath repo_path branch remote st))
  = (spawned st ++ [staged_quiet_argv repo_path])%list.
Proof.
  unfold staged_check_and_result.
  rewrite <- (run_spawned World exec (staged_quiet_argv repo_path) false None st).
  destruct (run exec _ false None st) as [[e|res] st']; reflexivity.
Qed.

(** X7: in a repository with no origin remote (rev-parse succeeds,
    [remote get-url origin] exits with a status other than 0) the tool does
    not fail: it reports the trimmed branch name, the remote "No remote
    configured", and has_staged_changes true exactly when
    [git diff --staged --quiet] exits with a status other than 0. *)
Theorem get_repo_info_tool_without_remote
        (repo_path : string) (st : state World)
        (branch e1 o2 e2 o3 e3 : string) (rc2 rc3 : Z) (w1 w2 w3 : World) :
  exec (branch_argv repo_path) None (world st) = (Completed 0 branch e1, w1) ->
  exec (remote_argv repo_path) None w1 = (Completed rc2 o2 e2, w2) ->
  rc2 <> 0%Z ->
  exec (staged_quiet_argv repo_path) None w2 = (Completed rc3 o3 e3, w3) ->
  let r := get_repo_info_tool exec abspath repo_path st in
  fst r = JDict [("repo_path", JStr (abspath repo_path));
                 ("branch", JStr (strip branch));
                 ("remote", JStr "No remote configured");
                 ("has_staged_changes", JBool (negb (rc3 =? 0)%Z))]
  /\ (get "has_staged_changes" (fst r) = Some (JBool true) <-> rc3 <> 0%Z)
  /\ has_key "error" (fst r) = false
  /\ spawned (snd r)
     = (spawned st ++ [branch_argv repo_path; remote_argv repo_path;
                       staged_quiet_argv repo_path])%list.
Proof.
  intros H1 H2 Hrc H3 r. unfold r, get_repo_info_tool, staged_check_and_result, run.
  rewrite H1. cbn [andb negb Z.eqb world spawned stdout].
  rewrite H2. apply Z.eqb_neq in Hrc. rewrite Hrc.
  cbn [andb negb world spawned]. rewrite H3. cbn [andb fst snd returncode spawned].
  split; [reflexivity|]. split.
  - cbn [get assoc String.eqb Ascii.eqb Bool.eqb].
    destruct (rc3 =? 0)%Z eqn:E3; cbn [negb].
    + apply Z.eqb_eq in E3. split; [discriminate | congruence].
    + apply Z.eqb_neq in E3. split; [auto | reflexivity].
  - split; [reflexivity|]. now rewrite <- !app_assoc.
Qed.

End RepoInfoFacts.

(** ** The suggested commit *)

Section SuggestedFacts.
Import PyStr Json Subprocess GitLog Tools Suggested.

Lemma strip_shows a c b : isspace c = false -> strip (a ++ String c b) <> "".
Proof.
  intros Hc H. apply strip_blank_rstrip in H. rewrite rstrip_app in H.
  assert (rstrip (String c b) <> "") as Hne.
  { simpl. destruct (rstrip b); [now rewrite Hc | discriminate]. }
  apply truthy_true in Hne. rewrite Hne in H. apply truthy_true in Hne.
  exact (app_not_empty a _ Hne H).
Qed.

Lemma full_message_shows c :
  exists a b, full_message c = a ++ String ":" b.
Proof.
  unfold full_message, header.
  set (sp := match present (scope c) with
             | Some s => "(" ++ s ++ ")"
             | None => ""
             end).
  destruct (present (body c)) as [b|].
  - exists (type c ++ sp), (String " " (subject c) ++ chr LF ++ chr LF ++ b).
    rewrite !string_app_assoc. reflexivity.
  - exists (type c ++ sp), (String " " (subject c)).
    rewrite !string_app_assoc. reflexivity.
Qed.

(** X9: when type, scope and subject hold no line break, the lines of
    [full_message] are the header alone if there is no body (none, or the
    empty string), and otherwise the header, one empty line, and the lines
    of the body. *)
Theorem full_message_lines (c : SuggestedCommit) :
  absent LF (header c) = true ->
  split LF (full_message c)
  = match present (body c) with
    | Some b => header c :: "" :: split LF b
    | None => [header c]
    end.
Proof.
  intros H. unfold full_message.
  destruct (present (body c)) as [b|].
  - change (chr LF ++ chr LF ++ b) with (String LF (String LF b)).
    rewrite (split_app_sep LF _ _ H). reflexivity.
  - now apply split_absent.
Qed.

(** X10: a [full_message] is never blank, whatever the fields hold, so
    [create_commit_tool] never turns it down as an empty message: it spawns
    [git commit -m] with the message trimmed. *)
Theorem full_message_is_committed
        (World : Type)
        (exec : list string -> option Z -> World -> outcome * World)
        (c : SuggestedCommit) (repo_path : string) (st : state World) :
  strip (full_message c) <> ""
  /\ spawned (snd (create_commit_tool exec (full_message c) repo_path st))
     = (spawned st ++ [commit_argv repo_path (strip (full_message c))])%list.
Proof.
  assert (strip (full_message c) <> "") as H.
  { destruct (full_message_shows c) as (a & b & ->).
    now apply strip_shows. }
  split; [exact H|]. now apply create_commit_tool_spawned.
Qed.
End SuggestedFacts.

(** ** More on the thread store *)

Section MoreThreadFacts.
Import PyStr Agent ThreadIds.







(** X13: [list_threads] never lists a thread twice. *)
Theorem list_threads_distinct (st : store) : NoDup (list_threads st).
Proof.
  unfold list_threads, distinct_thread_ids.
  destruct (SQLITE_AVAILABLE st); cbn [negb].
  - destruct (CHECKPOINT_DB st); try constructor. apply NoDup_nodup.
  - repeat constructor. simpl. tauto.
Qed.

(** X14: without the sqlite saver, [get_checkpointer] makes the in-memory
    saver on first use and hands out the same one on every later call;
    after [clear_all_threads] the next call starts from an empty saver. *)
Theorem get_checkpointer_in_memory (st : store) :
  SQLITE_AVAILABLE st = false ->
  let st1 := snd (get_checkpointer st) in
  snd (fst (get_checkpointer st)) = "memory"
  /\ get_checkpointer st1 = (fst (fst (get_checkpointer st)), "memory", st1)
  /\ get_checkpointer (snd (clear_all_threads st1))
     = (InMemorySaver [], "memory",
        {| SQLITE_AVAILABLE := false;
           CHECKPOINT_DB := CHECKPOINT_DB st;
           _memory_saver := Some [] |}).
Proof.
  intros Ha. unfold get_checkpointer, clear_all_threads. rewrite Ha.
  destruct (_memory_saver st) as [content|] eqn:Em; cbn [fst snd];
    rewrite ?Ha, ?Em; cbn [negb fst snd SQLITE_AVAILABLE _memory_saver CHECKPOINT_DB];
    rewrite ?Ha; repeat split.
Qed.

Lemma length_slice_to_exact n : forall s,
  (n <= String.length s)%nat -> String.length (slice_to n s) = n.
Proof.
  unfold slice_to. induction n as [|n IH]; intros [|c s]; simpl;
    try reflexivity; try lia.
  intros H. rewrite IH by lia. reflexivity.
Qed.

Lemma string_length_app a b :
  String.length (a ++ b) = (String.length a + String.length b)%nat.
Proof. induction a as [|c a IH]; simpl; [reflexivity | now rewrite IH]. Qed.

(** X15: [get_or_create_thread_id] returns a given identifier unchanged
    unless it is the empty string, which is treated like no identifier; a
    minted identifier is "thread_" followed by the first twelve hex digits
    of the uuid, nineteen characters in all. *)
Theorem get_or_create_thread_id_cases (uuid_hex : string) :
  (forall t, t <> "" -> get_or_create_thread_id (Some t) uuid_hex = t)
  /\ get_or_create_thread_id (Some "") uuid_hex
     = get_or_create_thread_id None uuid_hex
  /\ (String.length uuid_hex = 32%nat ->
      String.length (get_or_create_thread_id None uuid_hex) = 19%nat
      /\ exists digits,
          get_or_create_thread_id None uuid_hex = "thread_" ++ digits
          /\ String.length digits = 12%nat
          /\ String.prefix digits uuid_hex = true).
Proof.
  split; [|split].
  - intros t Ht. unfold get_or_create_thread_id.
    apply truthy_true in Ht. now rewrite Ht.
  - reflexivity.
  - intros Hlen. unfold get_or_create_thread_id, generate_thread_id.
    assert (String.length (slice_to 12 uuid_hex) = 12%nat) as H12
        by (apply length_slice_to_exact; lia).
    split.
    + rewrite string_length_app, H12. reflexivity.
    + exists (slice_to 12 uuid_hex). repeat split; auto.
      apply slice_to_prefix.
Qed.
End MoreThreadFacts.

(** ** More on the write workflow *)

Section MoreWorkflowFacts.
Import PyStr Cli.
Variable agent : list message -> list message.

Ltac run_write_unfold :=
  unfold run_write, invoke_agent, continue_conversation, invoke, input, session;
  cbn [stdin invocations fst snd].

Ltac read_lines k := exists k; split; [lia | reflexivity].

(** X16: the option typed at the first prompt counts only up to letter case
    and surrounding white space: two first lines with the same lower-cased,
    trimmed text give the same run. *)
Theorem run_write_ignores_case_and_space
        (repo l l' : string) (rest : list string) :
  lower (strip l) = lower (strip l') ->
  run_write agent repo (session (l :: rest))
  = run_write agent repo (session (l' :: rest)).
Proof. run_write_unfold. intros ->. reflexivity. Qed.

Lemma revise_not_other x :
  mem x revise_words = true ->
  mem x accept_words = false /\ mem x cancel_words = false.
Proof.
  intros H. apply mem_In in H. simpl in H.
  destruct H as [<-|[<-|[<-|[]]]]; split; reflexivity.
Qed.

(** X17: every run starts with the suggestion request, invokes the agent
    at most three times and reads at most three lines; each later
    invocation passes the whole previous answer followed by one new
    instruction, and a third invocation happens only to commit after a
    revision. *)
Theorem run_write_conversation (repo : string) (lines : list string) :
  let r := run_write agent repo (session lines) in
  let first := [HumanMessage (Suggest repo)] in
  (invocations (snd r) = [first]
   \/ (exists q, invocations (snd r)
                 = [first; (agent first ++ [HumanMessage q])%list])
   \/ (exists f,
          let second := (agent first ++ [HumanMessage (Revise f)])%list in
          invocations (snd r)
          = [first; second; (agent second ++ [HumanMessage ExecuteRevised])%list]))
  /\ exists k, (k <= 3)%nat /\ stdin (snd r) = skipn k lines.
Proof.
  cbv zeta. run_write_unfold.
  destruct lines as [|l rest]; cbn [stdin invocations fst snd].
  { split; [now left | read_lines 0%nat]. }
  destruct (mem (lower (strip l)) accept_words); cbn [stdin invocations fst snd].
  { split; [right; left; eexists; reflexivity | read_lines 1%nat]. }
  destruct (mem (lower (strip l)) cancel_words); cbn [stdin invocations fst snd].
  { split; [now left | read_lines 1%nat]. }
  destruct (mem (lower (strip l)) revise_words); cbn [stdin invocations fst snd].
  { destruct rest as [|f rest]; cbn [stdin invocations fst snd].
    { split; [now left | read_lines 1%nat]. }
    destruct rest as [|c rest]; cbn [stdin invocations fst snd].
    { split; [right; left; eexists; reflexivity | read_lines 2%nat]. }
    destruct (mem (lower (strip c)) confirm_words); cbn [stdin invocations fst snd].
    - split; [right; right; eexists; reflexivity | read_lines 3%nat].
    - split; [right; left; eexists; reflexivity | read_lines 3%nat]. }
  destruct (mem (lower (strip l)) custom_words); cbn [stdin invocations fst snd].
  { destruct rest as [|m rest]; cbn [stdin invocations fst snd].
    { split; [now left | read_lines 1%nat]. }
    destruct (truthy (strip m)); cbn [stdin invocations fst snd].
    - split; [right; left; eexists; reflexivity | read_lines 2%nat].
    - split; [now left | read_lines 2%nat]. }
  split; [now left | read_lines 1%nat].
Qed.

(** X18: after a revise word the feedback line is sent to the agent
    trimmed, even when it is empty, and the run commits exactly when the
    reply to the confirmation, trimmed and lower-cased, is "", "y" or "yes";
    the word "accept", taken at the first prompt, cancels here. *)
Theorem run_write_confirmation
        (repo l f c : string) (rest : list string) :
  mem (lower (strip l)) revise_words = true ->
  let r := run_write agent repo (session (l :: f :: c :: rest)) in
  fst r = (if mem (lower (strip c)) confirm_words
           then RevisionCommitted else RevisionCancelled)
  /\ submitted (snd r)
     = ([Suggest repo; Revise (strip f)]
          ++ if mem (lower (strip c)) confirm_words
             then [ExecuteRevised] else [])%list
  /\ (lower (strip c) = "accept" ->
      fst r = RevisionCancelled /\ commit_requests (snd r) = []).
Proof.
  intros Hr r.
  destruct (revise_not_other _ Hr) as [Ha Hc].
  assert (fst r = (if mem (lower (strip c)) confirm_words
                   then RevisionCommitted else RevisionCancelled)
          /\ submitted (snd r)
             = ([Suggest repo; Revise (strip f)]
                  ++ if mem (lower (strip c)) confirm_words
                     then [ExecuteRevised] else [])%list) as [H1 H2].
  { unfold r. run_write_unfold. rewrite Ha, Hc, Hr.
    cbn [stdin invocations fst snd].
    destruct (mem (lower (strip c)) confirm_words); cbn [fst snd];
      (split; [reflexivity|]);
      repeat rewrite submitted_snoc; reflexivity. }
  split; [exact H1|]. split; [exact H2|].
  intros E. unfold commit_requests. rewrite H1, H2, E. split; reflexivity.
Qed.
End MoreWorkflowFacts.

(** ** Listing and clearing threads from the command line *)

Section ThreadCliFacts.
Import PyStr Agent ThreadCli.
(** The console: which lines rich prints and on which it raises. *)
Variable renders : printed -> bool.

Lemma print_lines_one line :
  print_lines renders [line]
  = if renders line then ([line], Returned) else ([], MarkupError).
Proof. cbn [print_lines]. now destruct (renders line). Qed.

(** Every line is printed and the command returns exactly when rich
    renders each of them; otherwise the lines before the first one it
    raises on are printed and no more. *)
Lemma print_lines_all lines :
  (forallb renders lines = true -> print_lines renders lines = (lines, Returned))
  /\ (forall shown, print_lines renders lines = (shown, Returned) ->
                    shown = lines /\ forallb renders lines = true)
  /\ exists k, fst (print_lines renders lines) = firstn k lines.
Proof.
  induction lines as [|line rest (IH1 & IH2 & k & IH3)]; cbn [print_lines forallb].
  - split; [reflexivity|]. split; [now intros shown [= <-]|]. now exists 0%nat.
  - destruct (renders line) eqn:E; cbn [andb].
    + destruct (print_lines renders rest) as [shown e].
      split; [intros H; now injection (IH1 H) as -> ->|].
      split.
      * intros shown' [= <- ->]. destruct (IH2 shown eq_refl) as [-> ->]. auto.
      * exists (S k). cbn [fst firstn] in *. now rewrite IH3.
    + split; [discriminate|]. split; [discriminate|]. now exists 0%nat.
Qed.


(** X20: without the sqlite saver, listing prints, when rich renders
    them, a heading that counts one thread and one bullet holding the
    placeholder text, and in no case "No conversation threads found";
    clearing a named thread changes nothing and prints "Thread not found"
    unless rich raises on that line; clearing everything drops the
    in-memory saver and prints, on the same terms, a count of 1. *)
Theorem thread_commands_in_memory (st : store) :
  SQLITE_AVAILABLE st = false ->
  run_list_threads renders st
  = print_lines renders
      [ThreadsHeading 1; StoredInLine; ThreadBullet not_listable; UseThreadHint]
  /\ ~ In NoThreadsFound (fst (run_list_threads renders st))
  /\ (forall tid,
         tid <> "" ->
         run_clear_threads renders (Some tid) st
         = (if renders (ThreadNotFound tid)
            then ([ThreadNotFound tid], Returned) else ([], MarkupError),
            st))
  /\ fst (run_clear_threads renders None st)
     = (if renders (ClearedCount 1)
        then ([ClearedCount 1], Returned) else ([], MarkupError))
  /\ _memory_saver (snd (run_clear_threads renders None st)) = None.
Proof.
  intros Ha.
  assert (run_list_threads renders st
          = print_lines renders
              [ThreadsHeading 1; StoredInLine; ThreadBullet not_listable;
               UseThreadHint]) as Hl.
  { unfold run_list_threads, list_threads. now rewrite Ha. }
  split; [exact Hl|]. split; [|split].
  - rewrite Hl.
    destruct (print_lines_all
                [ThreadsHeading 1; StoredInLine; ThreadBullet not_listable;
                 UseThreadHint]) as (_ & _ & k & ->).
    intros Hin.
    assert (In NoThreadsFound
               [ThreadsHeading 1; StoredInLine; ThreadBullet not_listable;
                UseThreadHint]) as Hall.
    { rewrite <- (firstn_skipn k). apply in_or_app. now left. }
    simpl in Hall. intuition discriminate.
  - intros tid Htid. unfold run_clear_threads, clear_thread.
    apply truthy_true in Htid. rewrite Htid, Ha. cbn [negb].
    now rewrite print_lines_one.
  - unfold run_clear_threads, clear_everything, clear_all_threads.
    rewrite Ha. cbn [negb fst snd _memory_saver].
    split; [apply print_lines_one | reflexivity].
Qed.

(** Listing prints "No conversation threads found" first exactly when no
    thread is stored, and otherwise a heading with the number of threads
    and one bullet per thread, as far as rich renders the lines. *)
Lemma run_list_threads_lines st :
  (list_threads st = [] ->
   run_list_threads renders st
   = print_lines renders [NoThreadsFound; CheckpointDbLine])
  /\ (list_threads st <> [] ->
      run_list_threads renders st
      = print_lines renders
          ([ThreadsHeading (List.length (list_threads st)); StoredInLine]
             ++ map ThreadBullet (list_threads st) ++ [UseThreadHint])%list).
Proof.
  unfold run_list_threads. destruct (list_threads st) as [|t ts].
  - split; [reflexivity | congruence].
  - split; [discriminate | reflexivity].
Qed.
End ThreadCliFacts.

(** ** Which tool writes *)

Section WritingFacts.
Import PyStr Json Subprocess Tools RepoInfo Commands.
Variable World : Type.
Variable exec : list string -> option Z -> World -> outcome * World.
Variable mkdtemp : string -> World -> (string + string) * World.
Variable abspath : string -> string.

Lemma clone_repo_tool_spawned url (st : state World) :
  spawned (snd (clone_repo_tool exec mkdtemp url st)) = spawned st
  \/ exists dir,
      spawned (snd (clone_repo_tool exec mkdtemp url st))
      = (spawned st ++ [clone_argv (strip url) dir])%list.
Proof.
  unfold clone_repo_tool.
  destruct (negb (truthy (strip url))); [now left|].
  destruct (negb (has_allowed_protocol (strip url))); [now left|].
  unfold make_temp_dir.
  destruct (mkdtemp "commit_critic_" (world st)) as [[dir|text] w1];
    [|now left].
  right. exists dir.
  pose proof (run_spawned World exec (clone_argv (strip url) dir) true
                          (Some 60%Z) {| world := w1; spawned := spawned st |})
    as S.
  cbn [spawned] in S. rewrite <- S.
  destruct (run exec _ true (Some 60%Z) _) as [[[rc err|t|t]|res] st2];
    reflexivity.
Qed.

Lemma get_staged_diff_tool_spawned repo_path (st : state World) :
  exists k,
    spawned (snd (get_staged_diff_tool exec repo_path st))
    = (spawned st ++ firstn k [staged_stat_argv repo_path;
                               staged_diff_argv repo_path;
                               staged_names_argv repo_path])%list.
Proof.
  unfold get_staged_diff_tool.
  pose proof (run_spawned World exec (staged_stat_argv repo_path) true None st) as S1.
  destruct (run exec (staged_stat_argv repo_path) true None st)
    as [[e1|r1] st1]; cbn [fst snd] in *; [now exists 1%nat|].
  pose proof (run_spawned World exec (staged_diff_argv repo_path) true None st1) as S2.
  destruct (run exec (staged_diff_argv repo_path) true None st1)
    as [[e2|r2] st2]; cbn [fst snd] in *.
  { exists 2%nat. rewrite S2, S1, <- !app_assoc. reflexivity. }
  pose proof (run_spawned World exec (staged_names_argv repo_path) true None st2) as S3.
  exists 3%nat.
  destruct (run exec (staged_names_argv repo_path) true None st2)
    as [[e3|r3] st3]; cbn [fst snd] in *;
    [|destruct (staged_files (stdout r3)); cbn [snd]];
    rewrite S3, S2, S1, <- !app_assoc; reflexivity.
Qed.

Lemma get_repo_info_tool_spawned repo_path (st : state World) :
  exists k,
    spawned (snd (get_repo_info_tool exec abspath repo_path st))
    = (spawned st ++ firstn k [branch_argv repo_path;
                               remote_argv repo_path;
                               staged_quiet_argv repo_path])%list.
Proof.
  unfold get_repo_info_tool.
  pose proof (run_spawned World exec (branch_argv repo_path) true None st) as S1.
  destruct (run exec (branch_argv repo_path) true None st)
    as [[e1|r1] st1]; cbn [fst snd] in *; [now exists 1%nat|].
  pose proof (run_spawned World exec (remote_argv repo_path) true None st1) as S2.
  destruct (run exec (remote_argv repo_path) true None st1)
    as [[[rc err|t|t]|r2] st2]; cbn [fst snd] in *;
    try (exists 2%nat; rewrite S2, S1, <- !app_assoc; reflexivity);
    exists 3%nat;
    rewrite staged_check_and_result_spawned, S2, S1, <- !app_assoc;
    reflexivity.
Qed.

Lemma in_app_new {A} (a : A) old new :
  In a (old ++ new)%list -> In a old \/ In a new.
Proof. apply in_app_or. Qed.

Lemma in_firstn {A} (a : A) k l : In a (firstn k l) -> In a l.
Proof.
  revert l. induction k as [|k IH]; intros [|x l]; simpl; try tauto.
  intros [H|H]; [now left | right; now apply IH].
Qed.

(** X22: no reading tool writes.  Whatever the environment does, a
    [git commit] among the commands spawned after [get_commits_tool],
    [clone_repo_tool], [get_staged_diff_tool] or [get_repo_info_tool] was
    spawned before the call; [create_commit_tool] adds nothing or exactly
    one command, a [git commit]. *)
Theorem only_create_commit_tool_commits
        (repo_path url message : string) (limit : Z) (st : state World) :
  (forall argv,
      is_commit_command argv = true ->
      (In argv (spawned (snd (get_commits_tool exec repo_path limit st)))
       -> In argv (spawned st))
      /\ (In argv (spawned (snd (clone_repo_tool exec mkdtemp url st)))
          -> In argv (spawned st))
      /\ (In argv (spawned (snd (get_staged_diff_tool exec repo_path st)))
          -> In argv (spawned st))
      /\ (In argv (spawned (snd (get_repo_info_tool exec abspath repo_path st)))
          -> In argv (spawned st)))
  /\ (spawned (snd (create_commit_tool exec message repo_path st)) = spawned st
      \/ exists argv,
          spawned (snd (create_commit_tool exec message repo_path st))
          = (spawned st ++ [argv])%list
          /\ is_commit_command argv = true).
Proof.
  split.
  - intros argv Hc. repeat split.
    + rewrite get_commits_tool_spawned. intros H.
      apply in_app_new in H as [H|[<-|[]]]; [exact H | discriminate Hc].
    + destruct (clone_repo_tool_spawned url st) as [->|[dir ->]]; [tauto|].
      intros H. apply in_app_new in H as [H|[<-|[]]];
        [exact H | discriminate Hc].
    + destruct (get_staged_diff_tool_spawned repo_path st) as [k ->].
      intros H. apply in_app_new in H as [H|H]; [exact H|].
      apply in_firstn in H. simpl in H.
      destruct H as [<-|[<-|[<-|[]]]]; discriminate Hc.
    + destruct (get_repo_info_tool_spawned repo_path st) as [k ->].
      intros H. apply in_app_new in H as [H|H]; [exact H|].
      apply in_firstn in H. simpl in H.
      destruct H as [<-|[<-|[<-|[]]]]; discriminate Hc.
  - destruct (string_dec (strip message) "") as [E|E].
    + left. now rewrite (create_commit_tool_blank World exec message repo_path st E).
    + right. exists (commit_argv repo_path (strip message)).
      split; [now apply create_commit_tool_spawned | reflexivity].
Qed.
End WritingFacts.

(** ** The kind of result [get_commits_tool] returns *)

Section CommitsResultFacts.
Import PyStr Json Subprocess Tools.
Variable World : Type.
Variable exec : list string -> option Z -> World -> outcome * World.

(** X21: the result is a JSON list exactly when [git log] exited with
    status 0; otherwise it is an object with an error text and an empty
    commits list, and after a non-zero exit the error text is "Failed to
    fetch commits: " followed by what git wrote to standard error. *)
Theorem get_commits_tool_result_kind
        (repo_path : string) (limit : Z) (st : state World) :
  let r := fst (get_commits_tool exec repo_path limit st) in
  let argv := log_argv repo_path (clamp_limit limit) in
  ((exists items, r = JList items) <->
   exists out err w, exec argv None (world st) = (Completed 0 out err, w))
  /\ ((exists items, r = JList items)
      \/ exists text, r = JDict [("error", JStr text); ("commits", JList [])])
  /\ (forall rc out err w,
         exec argv None (world st) = (Completed rc out err, w) -> rc <> 0%Z ->
         r = JDict [("error", JStr ("Failed to fetch commits: " ++ err));
                    ("commits", JList [])]).
Proof.
  cbv zeta. unfold get_commits_tool, run.
  destruct (exec (log_argv repo_path (clamp_limit limit)) None (world st))
    as [[rc out err|t|t] w] eqn:E;
    [destruct (rc =? 0)%Z eqn:Erc;
     [apply Z.eqb_eq in Erc; subst rc | apply Z.eqb_neq in Erc]|..];
    cbn [andb negb fst].
  - split; [split; intros _; eauto|]. split; [eauto|].
    intros rc' out' err' w' [= <- _ _ _] H. now contradiction H.
  - split; [split; [intros (items & H); discriminate H
                   | intros (o & e & w' & [= -> _ _ _]); now contradiction Erc]|].
    split; [right; eauto|].
    intros rc' out' err' w' [= <- _ <- _] _. reflexivity.
  - split; [split; [intros (items & H); discriminate H
                   | intros (o & e & w' & H); discriminate H]|].
    split; [right; eauto|]. intros rc' out' err' w' H. discriminate H.
  - split; [split; [intros (items & H); discriminate H
                   | intros (o & e & w' & H); discriminate H]|].
    split; [right; eauto|]. intros rc' out' err' w' H. discriminate H.
Qed.
End CommitsResultFacts.

(** ** Witnesses for the further properties *)

Section MoreWitnesses.
Import PyStr Json Subprocess GitLog Tools RepoInfo Suggested Agent ThreadIds
       ThreadCli LogReading Cli Samples Scripts.

Lemma get_commits_tool_reads_history_witness :
  fst (get_commits_tool
         (prints (log_stdout [a_commit; empty_commit; wip_commit] 50))
         "." 50 start)
  = JList [JDict [("hash", JStr "3f2a9c0d");
                  ("message", JStr "fix(auth): refresh token before expiry");
                  ("body", JStr "The token was refreshed after it expired.")];
           JDict [("hash", JStr "5c8f2b6e");
                  ("message", JStr "wip");
                  ("body", JStr "")]].
Proof.
  apply (get_commits_tool_reads_history
           unit (prints (log_stdout [a_commit; empty_commit; wip_commit] 50))
           "." 50 start [a_commit; empty_commit; wip_commit] "" tt);
    reflexivity.
Defined.

Lemma get_staged_diff_tool_reports_files_witness :
  exists stat diff files,
    fst (get_staged_diff_tool (prints ("src/a.py" ++ chr LF ++ "src/b.py" ++ chr LF))
                              "." start)
    = JDict [("has_staged", JBool true);
             ("stat", JStr stat);
             ("diff", JStr diff);
             ("files", JList (map JStr files));
             ("file_count", JInt (Z.of_nat (List.length files)))]
    /\ files <> []
    /\ Forall (fun f => f <> "" /\ absent LF f = true) files
    /\ (String.length diff <= 5000)%nat
    /\ spawned (snd (get_staged_diff_tool
                       (prints ("src/a.py" ++ chr LF ++ "src/b.py" ++ chr LF))
                       "." start))
       = ([] ++ [staged_stat_argv "."; staged_diff_argv ".";
                 staged_names_argv "."])%list.
Proof.
  apply (get_staged_diff_tool_reports_files
           unit (prints ("src/a.py" ++ chr LF ++ "src/b.py" ++ chr LF)) "." start).
  reflexivity.
Defined.

Lemma clone_repo_tool_clones_trimmed_url_witness :
  spawned (snd (clone_repo_tool (prints "") tmp " https://github.com/a/b " start))
  = [clone_argv "https://github.com/a/b" "/tmp/commit_critic_k3x9"].
Proof.
  pose proof (clone_repo_tool_clones_trimmed_url
                unit (prints "") tmp " https://github.com/a/b " start eq_refl) as H.
  cbv zeta in H. destruct H as (_ & H).
  destruct (H "/tmp/commit_critic_k3x9" tt eq_refl) as (Hs & _).
  exact Hs.
Defined.

Lemma create_commit_tool_success_iff_witness :
  get "success"
      (fst (create_commit_tool scripted " fix: close file " "."
              (from_script [Completed 0 "[main 4c1e2a7] fix: close file" ""])))
  = Some (JBool true).
Proof.
  pose proof (create_commit_tool_success_iff
                (list outcome) scripted " fix: close file " "."
                (from_script [Completed 0 "[main 4c1e2a7] fix: close file" ""]))
    as H.
  cbv zeta in H. destruct H as (Hiff & _).
  apply Hiff. split; [discriminate|].
  exists "[main 4c1e2a7] fix: close file", "", []. reflexivity.
Defined.

Lemma get_repo_info_tool_without_remote_witness :
  fst (get_repo_info_tool
         scripted (fun _ => "/srv/app") "."
         (from_script [Completed 0 ("main" ++ chr LF) "";
                       Completed 2 "" "error: No such remote 'origin'";
                       Completed 1 "" ""]))
  = JDict [("repo_path", JStr "/srv/app");
           ("branch", JStr "main");
           ("remote", JStr "No remote configured");
           ("has_staged_changes", JBool true)].
Proof.
  apply (get_repo_info_tool_without_remote
           (list outcome) scripted (fun _ => "/srv/app") "."
           (from_script [Completed 0 ("main" ++ chr LF) "";
                         Completed 2 "" "error: No such remote 'origin'";
                         Completed 1 "" ""])
           ("main" ++ chr LF) "" "" "error: No such remote 'origin'" "" ""
           2 1
           [Completed 2 "" "error: No such remote 'origin'"; Completed 1 "" ""]
           [Completed 1 "" ""] []);
    try reflexivity.
  discriminate.
Defined.


Lemma full_message_lines_witness :
  split LF (full_message {| type := "feat"; scope := Some "api";
                            subject := "add response cache";
                            body := Some "Repeated reads hit the database." |})
  = ["feat(api): add response cache"; ""; "Repeated reads hit the database."].
Proof.
  apply (full_message_lines {| type := "feat"; scope := Some "api";
                               subject := "add response cache";
                               body := Some "Repeated reads hit the database." |}).
  reflexivity.
Defined.



Lemma get_checkpointer_in_memory_witness :
  snd (fst (get_checkpointer in_memory)) = "memory".
Proof.
  apply (get_checkpointer_in_memory in_memory eq_refl).
Defined.

Lemma get_or_create_thread_id_cases_witness :
  String.length
    (get_or_create_thread_id None "0f8fad5bd9cb469fa16570867728950e") = 19%nat.
Proof.
  pose proof (get_or_create_thread_id_cases
                "0f8fad5bd9cb469fa16570867728950e") as H.
  destruct H as (_ & _ & H). destruct (H eq_refl) as (Hlen & _). exact Hlen.
Defined.

Lemma run_write_ignores_case_and_space_witness :
  run_write replying_agent "/srv/app" (session [" YES "])
  = run_write replying_agent "/srv/app" (session ["yes"]).
Proof.
  apply (run_write_ignores_case_and_space replying_agent "/srv/app"
           " YES " "yes" []).
  reflexivity.
Defined.

Lemma run_write_confirmation_witness :
  fst (run_write replying_agent "/srv/app"
                 (session ["r"; "shorter"; "accept"])) = RevisionCancelled.
Proof.
  pose proof (run_write_confirmation replying_agent "/srv/app"
                "r" "shorter" "accept" [] eq_refl) as H.
  cbv zeta in H. destruct H as (_ & _ & H).
  destruct (H eq_refl) as (Hb & _). exact Hb.
Defined.


Lemma thread_commands_in_memory_witness :
  run_list_threads tag_console in_memory
  = ([ThreadsHeading 1; StoredInLine; ThreadBullet not_listable; UseThreadHint],
     Returned).
Proof.
  apply (thread_commands_in_memory tag_console in_memory eq_refl).
Defined.
End MoreWitnesses.
